(** * campus-confessions: the REST handlers of [server.js] over a model of the
    SQLite store.

    The four tables, every SQL statement the handlers issue and the ten
    route handlers are embedded as executable definitions; the callbacks of
    the driver become binds of a small state monad whose state holds the
    tables, the clock, the failures the driver is about to report and the
    trace of statements handed to it. *)

From stdpp Require Import gmap strings list sorting pretty.
From Stdlib Require Import ZArith.
From Stdlib Require Ascii String.
Import Stdlib.Strings.Ascii.

Local Open Scope string_scope.
Local Open Scope Z_scope.
Local Open Scope list_scope.

(** ** JavaScript values and strings *)

Module Js.

(** The values a parsed JSON body can hold in one of its fields
    ([Undefined] when the field is absent).  Arrays and objects are all
    represented by [Obj]: the handlers only test them for truthiness,
    for being a string and for membership in a list of strings.  A
    number is integer valued.  A string is a sequence of UTF-16 code
    units, here those below 256. *)
Inductive value : Type :=
| Undefined
| Null
| Bool (b : bool)
| Num (n : Z)
| Str (s : string)
| Obj.

#[global] Instance value_eq_dec : EqDecision value.
Proof. solve_decision. Defined.

(** [ToBoolean]: what [!v] and [v || w] test. *)
Definition truthy (v : value) : bool :=
  match v with
  | Undefined | Null => false
  | Bool b => b
  | Num n => negb (n =? 0)
  | Str s => negb (String.eqb s "")
  | Obj => true
  end.

(** [v || w] *)
Definition or (v w : value) : value := if truthy v then v else w.

(** [typeof v === 'string'] *)
Definition is_string (v : value) : bool :=
  match v with Str _ => true | _ => false end.

(** [arr.includes(v)] for an array [arr] of string literals: strict
    equality with one of them. *)
Definition includes (arr : list string) (v : value) : bool :=
  match v with
  | Str s => bool_decide (s ∈ arr)
  | _ => false
  end.

(** The code units of a value that [includes] found among strings. *)
Definition text (v : value) : string :=
  match v with Str s => s | _ => "" end.

(** White space and line terminators of ECMAScript below code 256: TAB,
    LF, VT, FF, CR, SPACE and NBSP. *)
Definition is_white_space (c : ascii) : bool :=
  let n := nat_of_ascii c in
  ((9 <=? n)%nat && (n <=? 13)%nat) || (n =? 32)%nat || (n =? 160)%nat.

Fixpoint trimStart (s : string) : string :=
  match s with
  | EmptyString => EmptyString
  | String c s' => if is_white_space c then trimStart s' else s
  end.

Fixpoint trimEnd (s : string) : string :=
  match s with
  | EmptyString => EmptyString
  | String c s' =>
      match trimEnd s' with
      | EmptyString => if is_white_space c then EmptyString
                       else String c EmptyString
      | t => String c t
      end
  end.

(** [s.trim()] *)
Definition trim (s : string) : string := trimEnd (trimStart s).

(** [s.length] *)
Definition length (s : string) : Z := Z.of_nat (String.length s).

(** [s.repeat(n)] for a one code unit string. *)
Fixpoint repeat (c : ascii) (n : nat) : string :=
  match n with
  | O => EmptyString
  | S n' => String c (repeat c n')
  end.

(** The double nearest to the integer [z]: [z] itself when its magnitude
    takes at most 53 bits, otherwise the multiple of [2 ^ e] nearest to
    it, where [e] leaves 53 bits to the significand, and of two that are
    equally near the one with the even significand. *)
Definition nearest_double (z : Z) : Z :=
  let e := Z.log2 (Z.abs z) - 52 in
  if e <=? 0 then z
  else
    let q := Z.abs z / 2 ^ e in
    let r := Z.abs z mod 2 ^ e in
    let half := 2 ^ (e - 1) in
    let up := (half <? r) || ((r =? half) && Z.odd q) in
    Z.sgn z * ((if up then q + 1 else q) * 2 ^ e).

(** [Number(s)] for the decimal text [s] of the integer [z], as
    [res.json] writes it: a number that is not finite is written as
    [null]. *)
Definition Number (z : Z) : value :=
  let d := nearest_double z in
  if Z.abs d <? 2 ^ 1024 then Num d else Null.

End Js.

(** ** Column values *)

Module Sqlite.

(** What a column of a row holds.  [real] and [text_of] stand for values
    that are not spelled out: the REAL that SQLite makes of an integer
    literal too large for 64 bits, and the text that comes of a bound
    value that is neither a string, a boolean nor an integer of 32 bits. *)
Inductive column : Type :=
| NULL
| integer (z : Z)
| real (literal : Z)
| text (s : string)
| text_of (v : Js.value).

#[global] Instance column_eq_dec : EqDecision column.
Proof. solve_decision. Defined.

(** The integers of 64 bits. *)
Definition fits (z : Z) : Prop := - 2 ^ 63 ≤ z < 2 ^ 63.

#[global] Instance fits_dec z : Decision (fits z).
Proof. unfold fits. apply _. Defined.


(** TEXT affinity, which the [image] column has, applied to a value the
    driver binds: a string is bound as a text and kept; [null] and
    [undefined] are bound as NULL; a boolean is bound as the integer 1 or
    0 and an integer of 32 bits as that integer, which the column turns
    into their decimal text; any other number is bound as a REAL and an
    object as its string form, of which the column holds the text. *)
Definition TEXT (v : Js.value) : column :=
  match v with
  | Js.Undefined | Js.Null => NULL
  | Js.Str s => text s
  | Js.Bool b => text (if b then "1" else "0")
  | Js.Num n =>
      if bool_decide (- 2 ^ 31 ≤ n < 2 ^ 31) then text (pretty n)
      else text_of v
  | Js.Obj => text_of v
  end.

(** The value the driver hands to a callback for a column: an integer
    comes as the double nearest to it.  [None] where the column is not
    spelled out. *)
Definition read (c : column) : option Js.value :=
  match c with
  | NULL => Some Js.Null
  | integer z => Some (Js.Num (Js.nearest_double z))
  | text s => Some (Js.Str s)
  | real _ | text_of _ => None
  end.

End Sqlite.

(** ** The store *)

(** A row of [posts] without its [id]: the table is keyed by it
    ([INTEGER PRIMARY KEY]).  [image] holds the value bound for the
    column, [Js.Null] for SQL NULL; [image_column] below is what the
    column makes of it.  [timestamp] counts seconds;
    [CURRENT_TIMESTAMP] texts compare as these counts do.  The counters
    are integers without a bound: they start at 0 and grow by one per
    request, which keeps them far from the 64 bits of SQLite and the 53
    bits the driver hands over exactly. *)
Record post : Type := Post {
  text : string;
  mood : string;
  image : Js.value;
  likes : Z;
  reposts : Z;
  timestamp : Z
}.

Record reaction : Type := Reaction {
  reaction_id : Z;
  reaction_post_id : Z;
  type : string;
  reaction_timestamp : Z
}.

Record reply : Type := Reply {
  reply_id : Z;
  reply_post_id : Z;
  reply_text : string;
  reply_timestamp : Z
}.

Record report : Type := Report {
  report_id : Z;
  report_post_id : Z;
  reason : string;
  report_timestamp : Z
}.

(** The child tables are lists in rowid order: their rows are only ever
    scanned, counted and deleted by [post_id].  The [seq_] fields are the
    rows of [sqlite_sequence] that [AUTOINCREMENT] maintains.  The
    [FOREIGN KEY] clauses are not part of the state: the handlers never
    switch the [foreign_keys] pragma on, so SQLite does not enforce them. *)
Record store : Type := Store {
  posts : gmap Z post;
  reactions : list reaction;
  replies : list reply;
  reports : list report;
  seq_posts : Z;
  seq_reactions : Z;
  seq_replies : Z;
  seq_reports : Z
}.

Definition empty_store : store := Store ∅ [] [] [] 0 0 0 0.

(** What the columns hold for the values a row was written with: [image]
    is declared [TEXT], the three [post_id] are declared [INTEGER]. *)
Definition image_column (p : post) : Sqlite.column := Sqlite.TEXT (image p).




(** ** The driver

    [db.run], [db.all] and [db.get] hand a statement to SQLite and pass
    [(err, result)] to a callback.  A handler is a computation over a
    [world]: the tables, the clock that [CURRENT_TIMESTAMP] reads, the
    outcomes the driver is about to report ([Some msg]: the next statement
    fails with [msg] and changes nothing; [None] or no entry: it runs) and
    the statements issued so far. *)

Inductive sql : Type :=
| SELECT_posts (top : bool)
| SELECT_reactions_IN (ids : list Z)
| INSERT_posts (text mood : string) (image : Js.value)
| UPDATE_posts (text mood : string) (image : Js.value) (id : Z)
| DELETE_reactions (id : Z)
| DELETE_replies (id : Z)
| DELETE_reports (id : Z)
| DELETE_posts (id : Z)
| UPDATE_likes (id : Z)
| SELECT_likes (id : Z)
| UPDATE_reposts (id : Z)
| SELECT_reposts (id : Z)
| INSERT_reactions (id : Z) (type : string)
| SELECT_reactions (id : Z)
| SELECT_replies (id : Z)
| INSERT_replies (id : Z) (text : string)
| INSERT_reports (id : Z) (reason : string).

Record world : Type := World {
  db : store;
  clock : Z;
  failures : list (option string);
  log : list sql
}.

(** What a callback receives. *)
Inductive result (A : Type) : Type :=
| Ok (a : A)
| Err (message : string).
Arguments Ok {A} a.
Arguments Err {A} message.

Definition Db (A : Type) : Type := world → A * world.

#[global] Instance Db_ret : MRet Db := λ A a w, (a, w).
#[global] Instance Db_bind : MBind Db :=
  λ A B k m w, let '(a, w') := m w in k a w'.

(** One statement: [run] is what it does to the tables at the time the
    clock shows. *)
Definition call {R : Type} (q : sql) (run : store → Z → R * store)
  : Db (result R) := λ w,
  match failures w with
  | Some message :: rest =>
      (Err message, World (db w) (clock w) rest (log w ++ [q]))
  | _ =>
      let '(r, d) := run (db w) (clock w) in
      (Ok r, World d (clock w) (tail (failures w)) (log w ++ [q]))
  end.

(** A statement that only reads. *)
Definition query {R : Type} (q : sql) (rows : store → R) : Db (result R) :=
  call q (λ d _, (rows d, d)).

(** ** SQL building blocks *)

(** [SELECT k, COUNT( * ) ... GROUP BY k] over the keys of the selected
    rows: one row per distinct key. *)
Definition group_count {K : Type} `{EqDecision K} (keys : list K)
  : list (K * Z) :=
  (λ k, (k, Z.of_nat (length (filter (k =.) keys)))) <$> remove_dups keys.

(** [l LEFT JOIN r ON on]: every row of [l] with each matching row of
    [r], or once with NULLs when there is none. *)
Definition left_join {A B : Type} (on : A → B → bool)
    (l : list A) (r : list B) : list (A * option B) :=
  a ← l;
  match filter (λ b, Is_true (on a b)) r with
  | [] => [(a, None)]
  | matches => (λ b, (a, Some b)) <$> matches
  end.

(** [COALESCE(x, 0)] *)
Definition COALESCE (x : option Z) (d : Z) : Z := default d x.

(** The rowid [AUTOINCREMENT] picks: one more than the largest rowid the
    table holds or ever held. *)
Definition next_rowid (seq : Z) (rowids : list Z) : Z :=
  Z.max seq (foldr Z.max 0 rowids) + 1.

(** ** The statements *)

(** A row of the list query: [posts.*] and the two counts. *)
Module Row.
Record t : Type := mk {
  id : Z;
  columns : post;
  reaction_count : Z;
  reply_count : Z
}.
End Row.

(** [(COALESCE(r.reaction_count, 0) + posts.reposts + posts.likes)] *)
Definition top_score (row : Row.t) : Z :=
  Row.reaction_count row + reposts (Row.columns row) + likes (Row.columns row).

(** [ORDER BY e DESC]: a row comes before every row with a smaller [e]. *)
Definition DESC {A : Type} (e : A → Z) (a b : A) : Prop := e b ≤ e a.

(** [ORDER BY e ASC] *)
Definition ASC {A : Type} (e : A → Z) (a b : A) : Prop := e a ≤ e b.

#[global] Instance DESC_dec {A} (e : A → Z) a b : Decision (DESC e a b).
Proof. unfold DESC. apply _. Defined.

#[global] Instance ASC_dec {A} (e : A → Z) a b : Decision (ASC e a b).
Proof. unfold ASC. apply _. Defined.

(** The order of rows that tie is left open by SQL; the model sorts with
    stdpp's merge sort. *)
Definition ORDER_BY (top : bool) : list Row.t → list Row.t :=
  if top then merge_sort (DESC top_score)
  else merge_sort (DESC (λ row, timestamp (Row.columns row))).

(** [SELECT posts.*, COALESCE(r.reaction_count, 0) as reaction_count,
      COALESCE(rep.reply_count, 0) as reply_count
    FROM posts
    LEFT JOIN (SELECT post_id, COUNT( * ) as reaction_count FROM reactions
               GROUP BY post_id) r ON r.post_id = posts.id
    LEFT JOIN (SELECT post_id, COUNT( * ) as reply_count FROM replies
               GROUP BY post_id) rep ON rep.post_id = posts.id
    ORDER BY ...] *)
Definition select_posts (top : bool) (d : store) : list Row.t :=
  let r := group_count (reaction_post_id <$> reactions d) in
  let rep := group_count (reply_post_id <$> replies d) in
  let from_posts := map_to_list (posts d) in
  let join_r := left_join (λ p x, bool_decide (x.1 = p.1)) from_posts r in
  let join_rep := left_join (λ pr x, bool_decide (x.1 = pr.1.1)) join_r rep in
  ORDER_BY top
    ((λ '(p, x, y), Row.mk p.1 p.2 (COALESCE (snd <$> x) 0)
                                   (COALESCE (snd <$> y) 0)) <$> join_rep).

(** [SELECT post_id, type, COUNT( * ) as count FROM reactions
    WHERE post_id IN (ids) GROUP BY post_id, type] *)
Definition select_reactions_in (ids : list Z) (d : store)
  : list (Z * string * Z) :=
  group_count ((λ x, (reaction_post_id x, type x))
                 <$> filter (λ x, reaction_post_id x ∈ ids) (reactions d)).

(** [INSERT INTO posts (text, mood, image) VALUES (?, ?, ?)]: the other
    columns take their defaults; the result is [this.lastID]. *)
Definition insert_posts (t m : string) (i : Js.value) (d : store) (now : Z)
  : Z * store :=
  let id := next_rowid (seq_posts d) (map_to_list (posts d)).*1 in
  (id, Store (<[id := Post t m i 0 0 now]> (posts d))
             (reactions d) (replies d) (reports d)
             id (seq_reactions d) (seq_replies d) (seq_reports d)).

(** [this.changes] of an [UPDATE] or [DELETE] that names one post. *)
Definition changes_at (id : Z) (d : store) : Z :=
  if posts d !! id is Some _ then 1 else 0.

Definition with_posts (f : gmap Z post → gmap Z post) (d : store) : store :=
  Store (f (posts d)) (reactions d) (replies d) (reports d)
        (seq_posts d) (seq_reactions d) (seq_replies d) (seq_reports d).

(** [UPDATE posts SET text = ?, mood = ?, image = ? WHERE id = ?] *)
Definition update_posts (t m : string) (i : Js.value) (id : Z) (d : store)
  : Z * store :=
  (changes_at id d,
   with_posts (alter (λ p, Post t m i (likes p) (reposts p) (timestamp p)) id)
              d).

(** [DELETE FROM reactions WHERE post_id = ?] *)
Definition delete_reactions (id : Z) (d : store) : unit * store :=
  (tt, Store (posts d) (filter (λ x, reaction_post_id x ≠ id) (reactions d))
             (replies d) (reports d)
             (seq_posts d) (seq_reactions d) (seq_replies d) (seq_reports d)).

(** [DELETE FROM replies WHERE post_id = ?] *)
Definition delete_replies (id : Z) (d : store) : unit * store :=
  (tt, Store (posts d) (reactions d)
             (filter (λ x, reply_post_id x ≠ id) (replies d)) (reports d)
             (seq_posts d) (seq_reactions d) (seq_replies d) (seq_reports d)).

(** [DELETE FROM reports WHERE post_id = ?] *)
Definition delete_reports (id : Z) (d : store) : unit * store :=
  (tt, Store (posts d) (reactions d) (replies d)
             (filter (λ x, report_post_id x ≠ id) (reports d))
             (seq_posts d) (seq_reactions d) (seq_replies d) (seq_reports d)).

(** [DELETE FROM posts WHERE id = ?] *)
Definition delete_posts (id : Z) (d : store) : Z * store :=
  (changes_at id d, with_posts (delete id) d).

(** [UPDATE posts SET likes = likes + 1 WHERE id = ?] *)
Definition update_likes (id : Z) (d : store) : Z * store :=
  (changes_at id d,
   with_posts (alter (λ p, Post (text p) (mood p) (image p) (likes p + 1)
                                (reposts p) (timestamp p)) id) d).

(** [UPDATE posts SET reposts = reposts + 1 WHERE id = ?] *)
Definition update_reposts (id : Z) (d : store) : Z * store :=
  (changes_at id d,
   with_posts (alter (λ p, Post (text p) (mood p) (image p) (likes p)
                                (reposts p + 1) (timestamp p)) id) d).

(** [SELECT likes FROM posts WHERE id = ?] through [db.get]: the row, or
    [undefined]. *)
Definition select_likes (id : Z) (d : store) : option Z :=
  likes <$> posts d !! id.

(** [SELECT reposts FROM posts WHERE id = ?] through [db.get]. *)
Definition select_reposts (id : Z) (d : store) : option Z :=
  reposts <$> posts d !! id.

(** [INSERT INTO reactions (post_id, type) VALUES (?, ?)] *)
Definition insert_reactions (id : Z) (ty : string) (d : store) (now : Z)
  : Z * store :=
  let rowid := next_rowid (seq_reactions d) (reaction_id <$> reactions d) in
  (rowid, Store (posts d) (reactions d ++ [Reaction rowid id ty now])
                (replies d) (reports d)
                (seq_posts d) rowid (seq_replies d) (seq_reports d)).

(** [SELECT type, COUNT( * ) as count FROM reactions WHERE post_id = ?
    GROUP BY type] *)
Definition select_reactions (id : Z) (d : store) : list (string * Z) :=
  group_count (type <$> filter (λ x, reaction_post_id x = id) (reactions d)).

(** [SELECT * FROM replies WHERE post_id = ? ORDER BY timestamp ASC] *)
Definition select_replies (id : Z) (d : store) : list reply :=
  merge_sort (ASC reply_timestamp)
             (filter (λ x, reply_post_id x = id) (replies d)).

(** [INSERT INTO replies (post_id, text) VALUES (?, ?)] *)
Definition insert_replies (id : Z) (t : string) (d : store) (now : Z)
  : Z * store :=
  let rowid := next_rowid (seq_replies d) (reply_id <$> replies d) in
  (rowid, Store (posts d) (reactions d) (replies d ++ [Reply rowid id t now])
                (reports d)
                (seq_posts d) (seq_reactions d) rowid (seq_reports d)).

(** [INSERT INTO reports (post_id, reason) VALUES (?, ?)] *)
Definition insert_reports (id : Z) (why : string) (d : store) (now : Z)
  : Z * store :=
  let rowid := next_rowid (seq_reports d) (report_id <$> reports d) in
  (rowid, Store (posts d) (reactions d) (replies d)
                (reports d ++ [Report rowid id why now])
                (seq_posts d) (seq_reactions d) (seq_replies d) rowid).

(** ** Responses *)

(** [json body] is [res.json(body)], status 200; [status code error] is
    [res.status(code).json({ error })]; [threw] is a [TypeError] raised by
    the handler ([trim] called on a value that is no string, a column read
    from a row that is [undefined]), which Express answers with 500. *)
Inductive response (A : Type) : Type :=
| json (body : A)
| status (code : Z) (error : string)
| threw.
Arguments json {A} body.
Arguments status {A} code error.
Arguments threw {A}.

Definition status_code {A : Type} (r : response A) : Z :=
  match r with
  | json _ => 200
  | status code _ => code
  | threw => 500
  end.

(** The outcomes of the specification's error taxonomy. *)
Definition NotFound {A : Type} : response A := status 404 "Not found".

Definition is_validation_error {A : Type} (r : response A) : Prop :=
  status_code r = 400.

(** An element of the array [GET /api/posts] answers:
    [{ ...row, reactions }]. *)
Module Listed.
Record t : Type := mk {
  row : Row.t;
  reactions : gmap string Z
}.
Definition id (x : t) : Z := Row.id (row x).
Definition reaction_count (x : t) : Z := Row.reaction_count (row x).
End Listed.

(** [{ id, text, mood, image, likes, reposts, reactions, reply_count }] *)
Module Created.
Record t : Type := mk {
  id : Z;
  text : string;
  mood : string;
  image : Js.value;
  likes : Z;
  reposts : Z;
  reactions : gmap string Z;
  reply_count : Z
}.
End Created.

(** [{ id, text, mood, image }] *)
Module Updated.
Record t : Type := mk {
  id : Z;
  text : string;
  mood : string;
  image : Js.value
}.
End Updated.

(** ** Helpers *)

Definition MAX_LENGTH : Z := 280.

Definition validMoods : list string :=
  ["none"; "love"; "happy"; "sad"; "angry"; "anxious"; "excited"].

Definition validTypes : list string :=
  ["love"; "haha"; "sad"; "angry"; "fire"].

Definition validReasons : list string :=
  ["spam"; "inappropriate"; "harassment"; "hate_speech"; "violence";
   "copyright"; "other"].

(** [validMoods.includes(mood) ? mood : 'none'] *)
Definition safeMood (mood : Js.value) : string :=
  if Js.includes validMoods mood then Js.text mood else "none".

(** The body of [rows.forEach] in [getReactionsForPosts]:
    [if (!map[r.post_id]) map[r.post_id] = {};
     map[r.post_id][r.type] = r.count]. *)
Definition add_row (map : gmap Z (gmap string Z)) (r : Z * string * Z)
  : gmap Z (gmap string Z) :=
  let '(post_id, type, count) := r in
  let map := if map !! post_id is Some _ then map else <[post_id := ∅]> map in
  alter (<[type := count]>) post_id map.

Definition getReactionsForPosts (ids : list Z) : Db (gmap Z (gmap string Z)) :=
  if bool_decide (length ids = 0%nat) then mret ∅
  else
    r ← query (SELECT_reactions_IN ids) (select_reactions_in ids);
    match r with
    | Err _ => mret ∅
    | Ok rows => mret (foldl add_row ∅ rows)
    end.

(** ** Routes

    [id] is [req.params.id] where that is the decimal text of an integer.
    A row is recorded with that integer: when 64 bits hold it, SQLite
    stores and compares it as that integer in the [id] and [post_id]
    columns, which have INTEGER affinity ([Sqlite.INTEGER]).  What
    [Number] reads from the text is [Js.Number]. *)

(** [GET /api/posts]; [sort] is [req.query.sort]. *)
Definition listPosts (sort : Js.value) : Db (response (list Listed.t)) :=
  let top := bool_decide (sort = Js.Str "top") in
  r ← query (SELECT_posts top) (select_posts top);
  match r with
  | Err message => mret (status 500 message)
  | Ok rows =>
      reactionsMap ← getReactionsForPosts (Row.id <$> rows);
      mret (json ((λ row, Listed.mk row (default ∅ (reactionsMap !! Row.id row)))
                    <$> rows))
  end.

(** [text.trim()]: [None] is the [TypeError] of calling [trim] on a value
    that has no such method. *)
Definition call_trim (text : Js.value) : option string :=
  match text with
  | Js.Str s => Some (Js.trim s)
  | _ => None
  end.

(** [!text.trim()] *)
Definition not_trim (text : Js.value) : option bool :=
  (λ t, negb (Js.truthy (Js.Str t))) <$> call_trim text.

(** [!text || !text.trim()] *)
Definition is_blank (text : Js.value) : option bool :=
  if negb (Js.truthy text) then Some true else not_trim text.

(** [typeof text !== 'string' || !text.trim()] *)
Definition is_blank_string (text : Js.value) : option bool :=
  if negb (Js.is_string text) then Some true else not_trim text.

(** [text.trim()] once one of the tests above let [text] through. *)
Definition trimmed (text : Js.value) : string := default "" (call_trim text).

(** [POST /api/posts] *)
Definition createPost (text mood image : Js.value) : Db (response Created.t) :=
  match is_blank text with
  | None => mret threw
  | Some true => mret (status 400 "Post cannot be empty")
  | Some false =>
      if Js.length (trimmed text) >? MAX_LENGTH
      then mret (status 400 "Max 280 characters")
      else
        let mood' := safeMood mood in
        let image' := Js.or image Js.Null in
        r ← call (INSERT_posts (trimmed text) mood' image')
                 (insert_posts (trimmed text) mood' image');
        match r with
        | Err message => mret (status 500 message)
        | Ok lastID =>
            mret (json (Created.mk lastID (trimmed text) mood' image' 0 0 ∅ 0))
        end
  end.

(** [PUT /api/posts/:id].  The body carries [Number(req.params.id)] as
    [id]; the route answers with it only for the id of a post, and it is
    taken to be that id, as [Js.Number] is for an id up to 2^53. *)
Definition updatePost (id : Z) (text mood image : Js.value)
  : Db (response Updated.t) :=
  match is_blank_string text with
  | None => mret threw
  | Some true => mret (status 400 "Post cannot be empty")
  | Some false =>
      if Js.length (trimmed text) >? MAX_LENGTH
      then mret (status 400 "Max 280 characters")
      else
        let mood' := safeMood mood in
        let image' := Js.or image Js.Null in
        r ← call (UPDATE_posts (trimmed text) mood' image' id)
                 (λ d _, update_posts (trimmed text) mood' image' id d);
        match r with
        | Err message => mret (status 500 message)
        | Ok changes =>
            if changes =? 0 then mret NotFound
            else mret (json (Updated.mk id (trimmed text) mood' image'))
        end
  end.

(** [DELETE /api/posts/:id]; the body is [{ ok: true }].  The first three
    statements are issued without a callback: a failure of one of them
    is passed over here, where the process stops on the [error] event
    that nobody listens to, with the tables as that statement left them.
    What is stated about an answer of this route is stated for runs in
    which the three pass. *)
Definition deletePost (id : Z) : Db (response bool) :=
  _ ← call (DELETE_reactions id) (λ d _, delete_reactions id d);
  _ ← call (DELETE_replies id) (λ d _, delete_replies id d);
  _ ← call (DELETE_reports id) (λ d _, delete_reports id d);
  r ← call (DELETE_posts id) (λ d _, delete_posts id d);
  match r with
  | Err message => mret (status 500 message)
  | Ok changes =>
      if changes =? 0 then mret NotFound else mret (json true)
  end.

(** [POST /api/posts/:id/like]; the body is [{ likes }]. *)
Definition incrementLikes (id : Z) : Db (response Z) :=
  r ← call (UPDATE_likes id) (λ d _, update_likes id d);
  match r with
  | Err message => mret (status 500 message)
  | Ok changes =>
      if changes =? 0 then mret NotFound
      else
        r ← query (SELECT_likes id) (select_likes id);
        match r with
        | Err message => mret (status 500 message)
        | Ok (Some row_likes) => mret (json row_likes)
        | Ok None => mret threw
        end
  end.

(** [POST /api/posts/:id/repost]; the body is [{ reposts }]. *)
Definition incrementReposts (id : Z) : Db (response Z) :=
  r ← call (UPDATE_reposts id) (λ d _, update_reposts id d);
  match r with
  | Err message => mret (status 500 message)
  | Ok changes =>
      if changes =? 0 then mret NotFound
      else
        r ← query (SELECT_reposts id) (select_reposts id);
        match r with
        | Err message => mret (status 500 message)
        | Ok (Some row_reposts) => mret (json row_reposts)
        | Ok None => mret threw
        end
  end.

(** [POST /api/posts/:id/react]; the body is [{ reactions }]. *)
Definition addReaction (id : Z) (type : Js.value)
  : Db (response (gmap string Z)) :=
  if negb (Js.includes validTypes type)
  then mret (status 400 "Invalid reaction")
  else
    r ← call (INSERT_reactions id (Js.text type))
             (insert_reactions id (Js.text type));
    match r with
    | Err message => mret (status 500 message)
    | Ok _ =>
        r ← query (SELECT_reactions id) (select_reactions id);
        match r with
        | Err message => mret (status 500 message)
        | Ok rows =>
            mret (json (foldl (λ reactions r, <[r.1 := r.2]> reactions)
                              ∅ rows))
        end
    end.

(** [GET /api/posts/:id/replies] *)
Definition listReplies (id : Z) : Db (response (list reply)) :=
  r ← query (SELECT_replies id) (select_replies id);
  match r with
  | Err message => mret (status 500 message)
  | Ok rows => mret (json rows)
  end.

(** [POST /api/posts/:id/reply]; the body is [{ id, post_id, text }],
    with [Number(req.params.id)] for [post_id]. *)
Definition addReply (id : Z) (text : Js.value)
  : Db (response (Z * Js.value * string)) :=
  match is_blank text with
  | None => mret threw
  | Some true => mret (status 400 "Reply cannot be empty")
  | Some false =>
      r ← call (INSERT_replies id (trimmed text))
               (insert_replies id (trimmed text));
      match r with
      | Err message => mret (status 500 message)
      | Ok lastID => mret (json (lastID, Js.Number id, trimmed text))
      end
  end.

(** [POST /api/posts/:id/report]; the body is [{ id, post_id, reason }],
    with [Number(req.params.id)] for [post_id]. *)
Definition addReport (id : Z) (reason : Js.value)
  : Db (response (Z * Js.value * string)) :=
  if negb (Js.includes validReasons reason)
  then mret (status 400 "Invalid reason")
  else
    r ← call (INSERT_reports id (Js.text reason))
             (insert_reports id (Js.text reason));
    match r with
    | Err message => mret (status 500 message)
    | Ok lastID => mret (json (lastID, Js.Number id, Js.text reason))
    end.

(** ** Vocabulary of the statements *)

(** The next [n] statements run: the driver reports no failure for them. *)
Definition runs (n : nat) (w : world) : Prop :=
  Forall (λ o, o = None) (take n (failures w)).

#[global] Instance runs_dec n w : Decision (runs n w).
Proof. unfold runs. apply _. Defined.

(** The statement issued after [i] others fails with [message]. *)
Definition fails (i : nat) (message : string) (w : world) : Prop :=
  failures w !! i = Some (Some message).

(** The world a statement leaves that ran and took the tables to [d]. *)
Definition after (q : sql) (d : store) (w : world) : world :=
  World d (clock w) (tail (failures w)) (log w ++ [q]).

(** The sum over all reaction types of the counts of a breakdown. *)
Definition sum_counts (m : gmap string Z) : Z :=
  map_fold (λ _ count total, count + total) 0 m.

(** How many rows of a child table belong to the post [id]. *)
Definition count_by {A : Type} (post_id : A → Z) (id : Z) (l : list A) : Z :=
  Z.of_nat (length (filter (λ x, post_id x = id) l)).

(** [reaction_count + reposts + likes] of a listed post, and its creation
    time. *)
Definition score (x : Listed.t) : Z :=
  Listed.reaction_count x + reposts (Row.columns (Listed.row x))
  + likes (Row.columns (Listed.row x)).

Definition created (x : Listed.t) : Z := timestamp (Row.columns (Listed.row x)).

(** The column of a row that exists holds [v] as it is: the driver reads
    [v] back from it. *)
Definition stored_as (col : option Sqlite.column) (v : Js.value) : Prop :=
  ∃ c, col = Some c ∧ Sqlite.read c = Some v.

(** [rows] is in descending order of [key]: no row has a smaller key than
    a row after it. *)
Definition descending {A : Type} (key : A → Z) (rows : list A) : Prop :=
  ∀ i j x y, (i < j)%nat → rows !! i = Some x → rows !! j = Some y →
             key y ≤ key x.

(** ** A sample world

    Two posts; two [love] and one [fire] on the first, a reply and a
    report on it too; the driver reports no failure. *)
Definition sample_store : store :=
  Store {[ 1 := Post "hi" "none" Js.Null 4 1 100;
           2 := Post "exam week" "anxious" (Js.Str "data:image/png;base64,AA")
                     0 0 160 ]}
        [Reaction 1 1 "love" 110; Reaction 2 1 "fire" 120;
         Reaction 3 1 "love" 130]
        [Reply 1 1 "same" 140]
        [Report 1 1 "spam" 150]
        2 3 1 1.

Definition sample_world : world := World sample_store 200 [] [].

(** The same tables when the second statement of the next request is
    going to fail. *)
Definition faulty_world : world :=
  World sample_store 200 [None; Some "SQLITE_BUSY: database is locked"] [].

(** ** The route table

    One constructor for each [app.get], [app.post], [app.put] and
    [app.delete] of the file, with what the handler reads from the
    request. *)
Inductive request : Type :=
| GET_posts (sort : Js.value)
| POST_posts (text mood image : Js.value)
| PUT_post (id : Z) (text mood image : Js.value)
| DELETE_post (id : Z)
| POST_like (id : Z)
| POST_repost (id : Z)
| POST_react (id : Z) (type : Js.value)
| GET_replies (id : Z)
| POST_reply (id : Z) (text : Js.value)
| POST_report (id : Z) (reason : Js.value).

(** The status line of what a handler answers. *)
Definition answer {A : Type} (m : Db (response A)) : Db Z :=
  r ← m; mret (status_code r).

Definition serve (r : request) : Db Z :=
  match r with
  | GET_posts sort => answer (listPosts sort)
  | POST_posts text mood image => answer (createPost text mood image)
  | PUT_post id text mood image => answer (updatePost id text mood image)
  | DELETE_post id => answer (deletePost id)
  | POST_like id => answer (incrementLikes id)
  | POST_repost id => answer (incrementReposts id)
  | POST_react id type => answer (addReaction id type)
  | GET_replies id => answer (listReplies id)
  | POST_reply id text => answer (addReply id text)
  | POST_report id reason => answer (addReport id reason)
  end.

(** A request as it arrives: at some time, and with what the driver is
    going to report while it is served. *)
Record arrival : Type := Arrival {
  arriving : request;
  at_time : Z;
  driver : list (option string)
}.

(** The tables after one request and after a run of them, one served
    after the other. *)
Definition serve_at (d : store) (a : arrival) : store :=
  db (serve (arriving a) (World d (at_time a) (driver a) [])).2.

Definition serve_all (d : store) (l : list arrival) : store :=
  foldl serve_at d l.

(** ** Vocabulary of the further statements *)

(** The status codes the handler of a route has a [res.status] or a
    [res.json] for, and 500 for what it can throw. *)
Definition may_answer (r : request) : list Z :=
  match r with
  | GET_posts _ | GET_replies _ => [200; 500]
  | POST_posts _ _ _ | POST_react _ _ | POST_reply _ _ | POST_report _ _ =>
      [200; 400; 500]
  | PUT_post _ _ _ _ => [200; 400; 404; 500]
  | DELETE_post _ | POST_like _ | POST_repost _ => [200; 404; 500]
  end.

(** How many reactions of one type the post [id] has. *)
Definition count_type (id : Z) (ty : string) (l : list reaction) : Z :=
  Z.of_nat (length (filter (λ x, reaction_post_id x = id ∧ type x = ty) l)).

(** What a breakdown holds for a type that has [n] reactions: nothing
    when there is none. *)
Definition entry (n : Z) : option Z := if decide (n = 0) then None else Some n.


(** A computation takes the tables from [d] to tables [R]-related to
    [d], whatever the driver reports. *)
Definition keeps (R : relation store) {A : Type} (m : Db A) : Prop :=
  ∀ w, R (db w) (db (m w).2).

(** The relation of an invariant. *)
Definition invariant (I : store → Prop) : relation store :=
  λ d d', I d → I d'.

(** Every statement a handler issues, with arguments its validation lets
    through, takes the tables to [R]-related ones. *)
Record statements_keep (R : relation store) : Prop := {
  keep_insert_posts :
    ∀ s mood img d now,
      Js.trim s ≠ "" → Js.length (Js.trim s) ≤ MAX_LENGTH →
      R d (insert_posts (Js.trim s) (safeMood mood) (Js.or img Js.Null) d now).2;
  keep_update_posts :
    ∀ s mood img id d,
      Js.trim s ≠ "" → Js.length (Js.trim s) ≤ MAX_LENGTH →
      R d (update_posts (Js.trim s) (safeMood mood) (Js.or img Js.Null) id d).2;
  keep_delete_reactions : ∀ id d, R d (delete_reactions id d).2;
  keep_delete_replies : ∀ id d, R d (delete_replies id d).2;
  keep_delete_reports : ∀ id d, R d (delete_reports id d).2;
  keep_delete_posts : ∀ id d, R d (delete_posts id d).2;
  keep_update_likes : ∀ id d, R d (update_likes id d).2;
  keep_update_reposts : ∀ id d, R d (update_reposts id d).2;
  keep_insert_reactions :
    ∀ id ty d now, ty ∈ validTypes → R d (insert_reactions id ty d now).2;
  keep_insert_replies :
    ∀ id s d now, Js.trim s ≠ "" → R d (insert_replies id (Js.trim s) d now).2;
  keep_insert_reports :
    ∀ id why d now, why ∈ validReasons → R d (insert_reports id why d now).2
}.

(** What the validation of the handlers lets into a row, and what the
    counters start from. *)
Record well_formed_post (p : post) : Prop := {
  text_not_empty : text p ≠ "";
  text_trimmed : Js.trim (text p) = text p;
  text_short : Js.length (text p) ≤ MAX_LENGTH;
  mood_valid : mood p ∈ validMoods;
  image_null_or_truthy : image p = Js.Null ∨ Js.truthy (image p) = true;
  likes_not_negative : 0 ≤ likes p;
  reposts_not_negative : 0 ≤ reposts p
}.

Record well_formed (d : store) : Prop := {
  posts_well_formed : ∀ id p, posts d !! id = Some p → well_formed_post p;
  types_valid : ∀ x, x ∈ reactions d → type x ∈ validTypes;
  replies_not_empty :
    ∀ x, x ∈ replies d →
         reply_text x ≠ "" ∧ Js.trim (reply_text x) = reply_text x;
  reasons_valid : ∀ x, x ∈ reports d → reason x ∈ validReasons
}.

(** The rowids of every table are positive, distinct and at most what
    [sqlite_sequence] records for it. *)
Record keys_ok (d : store) : Prop := {
  post_ids : ∀ id, is_Some (posts d !! id) → 1 ≤ id ≤ seq_posts d;
  reaction_ids : ∀ x, x ∈ reactions d → 1 ≤ reaction_id x ≤ seq_reactions d;
  reply_ids : ∀ x, x ∈ replies d → 1 ≤ reply_id x ≤ seq_replies d;
  report_ids : ∀ x, x ∈ reports d → 1 ≤ report_id x ≤ seq_reports d;
  reaction_ids_distinct : NoDup (reaction_id <$> reactions d);
  reply_ids_distinct : NoDup (reply_id <$> replies d);
  report_ids_distinct : NoDup (report_id <$> reports d)
}.

(** [d'] comes after [d]: the sequences have not gone back; a post of [d']
    either got its id after [d] or is a post of [d] with the timestamp it
    had and counters that are not smaller; a child row of [d'] either got
    its id after [d] or is a row of [d]. *)
Record comes_after (d d' : store) : Prop := {
  seq_posts_le : seq_posts d ≤ seq_posts d';
  seq_reactions_le : seq_reactions d ≤ seq_reactions d';
  seq_replies_le : seq_replies d ≤ seq_replies d';
  seq_reports_le : seq_reports d ≤ seq_reports d';
  posts_kept :
    ∀ id p', posts d' !! id = Some p' →
      seq_posts d < id
      ∨ ∃ p, posts d !! id = Some p ∧ timestamp p' = timestamp p
             ∧ likes p ≤ likes p' ∧ reposts p ≤ reposts p';
  reactions_kept :
    ∀ x, x ∈ reactions d' → seq_reactions d < reaction_id x ∨ x ∈ reactions d;
  replies_kept :
    ∀ x, x ∈ replies d' → seq_replies d < reply_id x ∨ x ∈ replies d;
  reports_kept :
    ∀ x, x ∈ reports d' → seq_reports d < report_id x ∨ x ∈ reports d
}.

(** Nothing has been taken away: every post is still there and each child
    table starts with the rows it had. *)
Record grown (d d' : store) : Prop := {
  posts_stay : ∀ id, is_Some (posts d !! id) → is_Some (posts d' !! id);
  reactions_stay : reactions d `prefix_of` reactions d';
  replies_stay : replies d `prefix_of` replies d';
  reports_stay : reports d `prefix_of` reports d'
}.

(** Every child row belongs to a post that exists. *)
Record referential (d : store) : Prop := {
  reactions_refer : ∀ x, x ∈ reactions d → is_Some (posts d !! reaction_post_id x);
  replies_refer : ∀ x, x ∈ replies d → is_Some (posts d !! reply_post_id x);
  reports_refer : ∀ x, x ∈ reports d → is_Some (posts d !! report_post_id x)
}.

(** ** The schema at startup

    The tables of the database file: under the name of each table, in
    lower case since SQLite compares names without regard to case, the
    names of its columns in the order and the case they were declared
    in. *)
Module Schema.

Definition lower_ascii (c : ascii) : ascii :=
  let n := nat_of_ascii c in
  if (65 <=? n)%nat && (n <=? 90)%nat then ascii_of_nat (n + 32) else c.

Fixpoint lower (s : string) : string :=
  match s with
  | EmptyString => EmptyString
  | String c s' => String (lower_ascii c) (lower s')
  end.

(** Whether a table with these columns has one of that name, for
    SQLite. *)
Definition has_column (columns : list string) (name : string) : bool :=
  bool_decide (lower name ∈ lower <$> columns).

(** [CREATE TABLE IF NOT EXISTS name (columns)] *)
Definition create_table_if_not_exists (name : string) (columns : list string)
    (t : gmap string (list string)) : option (gmap string (list string)) :=
  if t !! lower name is Some _ then Some t
  else Some (<[lower name := columns]> t).

(** [PRAGMA table_info(name)], the [name] of every row: the columns as
    declared, none when there is no such table. *)
Definition table_info (name : string) (t : gmap string (list string))
  : list string :=
  default [] (t !! lower name).

(** [ALTER TABLE name ADD COLUMN column]: an error when there is no such
    table or when it has such a column. *)
Definition add_column (name column : string) (t : gmap string (list string))
  : option (gmap string (list string)) :=
  match t !! lower name with
  | Some columns =>
      if has_column columns column then None
      else Some (<[lower name := columns ++ [column]]> t)
  | None => None
  end.

(** A statement whose error nobody looks at: issued without a callback,
    or with [() => {}].  [failures] is what the driver is going to report,
    as for the handlers.  Where a statement without a callback fails, the
    process stops on the [error] event; the schema is then the one
    reached here when the statements after it fail as well. *)
Definition run_ignored (failures : list (option string))
    (statement : gmap string (list string) → option (gmap string (list string)))
    (t : gmap string (list string))
  : gmap string (list string) * list (option string) :=
  match failures with
  | Some _ :: rest => (t, rest)
  | _ => (default t (statement t), tail failures)
  end.

Definition posts_columns : list string :=
  ["id"; "text"; "mood"; "image"; "likes"; "reposts"; "timestamp"].
Definition reactions_columns : list string :=
  ["id"; "post_id"; "type"; "timestamp"].
Definition replies_columns : list string :=
  ["id"; "post_id"; "text"; "timestamp"].
Definition reports_columns : list string :=
  ["id"; "post_id"; "reason"; "timestamp"].

(** The four [CREATE TABLE IF NOT EXISTS] of the [db.serialize] block. *)
Definition create_tables (failures : list (option string))
    (t : gmap string (list string))
  : gmap string (list string) * list (option string) :=
  let '(t, failures) :=
    run_ignored failures (create_table_if_not_exists "posts" posts_columns) t in
  let '(t, failures) :=
    run_ignored failures
      (create_table_if_not_exists "reactions" reactions_columns) t in
  let '(t, failures) :=
    run_ignored failures
      (create_table_if_not_exists "replies" replies_columns) t in
  run_ignored failures (create_table_if_not_exists "reports" reports_columns) t.

(** The migration: [db.all] of [PRAGMA table_info(posts)] and its
    callback. *)
Definition migrate (failures : list (option string))
    (t : gmap string (list string)) : gmap string (list string) :=
  match failures with
  | Some _ :: _ => t
  | _ =>
      let names := table_info "posts" t in
      if bool_decide ("image" ∈ names) then t
      else (run_ignored (tail failures) (add_column "posts" "image") t).1
  end.

(** The [db.serialize] block at the top of the file. *)
Definition startup (failures : list (option string))
    (t : gmap string (list string)) : gmap string (list string) :=
  let '(t, failures) := create_tables failures t in
  migrate failures t.

(** A table that was there keeps its columns; a table that was not
    there gets the columns the file declares for it. *)
Definition created_from (t t' : gmap string (list string)) : Prop :=
  t ⊆ t'
  ∧ ∀ name columns, t' !! name = Some columns →
      t !! name = Some columns
      ∨ (name, columns)
        ∈ [("posts", posts_columns); ("reactions", reactions_columns);
           ("replies", replies_columns); ("reports", reports_columns)].

(** The four tables are there and [posts] has a column [image]. *)
Definition ready (t : gmap string (list string)) : Prop :=
  (∃ columns, t !! "posts" = Some columns ∧ has_column columns "image" = true)
  ∧ is_Some (t !! "reactions") ∧ is_Some (t !! "replies")
  ∧ is_Some (t !! "reports").

(** A database file of the time before [posts] had an [image]. *)
Definition old_file : gmap string (list string) :=
  {[ "posts" := ["id"; "text"; "mood"; "likes"; "reposts"; "timestamp"];
     "reactions" := reactions_columns ]}.

End Schema.

(** ** A sample run

    A post is created, liked, reacted and replied to, reported, edited
    and deleted, and another one is created; the driver fails once. *)
Definition sample_run : list arrival :=
  [ Arrival (POST_posts (Js.Str "  first  ") (Js.Str "moody") (Js.Str "")) 10 [];
    Arrival (POST_like 1) 11 [];
    Arrival (POST_react 1 (Js.Str "love")) 12 [];
    Arrival (POST_react 1 (Js.Str "meh")) 13 [];
    Arrival (POST_reply 1 (Js.Str " me too ")) 14 [];
    Arrival (POST_report 1 (Js.Str "spam")) 15 [Some "SQLITE_BUSY"];
    Arrival (POST_report 1 (Js.Str "spam")) 16 [];
    Arrival (PUT_post 1 (Js.Str "edited") (Js.Str "happy") (Js.Str "a.png")) 17 [];
    Arrival (GET_posts (Js.Str "top")) 18 [];
    Arrival (DELETE_post 1) 19 [];
    Arrival (POST_posts (Js.Str "second") Js.Undefined Js.Undefined) 20 [] ].

(** ** The driver *)

Section driver.
Context {R : Type} (q : sql) (run : store → Z → R * store).

Lemma call_runs n w :
  runs (S n) w →
  call q run w
  = (Ok (run (db w) (clock w)).1, after q (run (db w) (clock w)).2 w).
Proof.
  unfold runs, call, after. intros Hruns.
  destruct (failures w) as [|[message|] rest]; simpl in *.
  - by destruct (run _ _).
  - by inversion Hruns.
  - by destruct (run _ _).
Qed.

Lemma call_fails message w :
  fails 0 message w →
  call q run w = (Err message, after q (db w) w).
Proof.
  unfold fails, call, after. intros Hfails.
  destruct (failures w) as [|[?|] rest]; simplify_eq/=; done.
Qed.

Lemma runs_after n d w : runs (S n) w → runs n (after q d w).
Proof.
  unfold runs, after; simpl. destruct (failures w); simpl.
  - by rewrite take_nil.
  - by inversion 1.
Qed.

Lemma fails_after i message d w :
  fails (S i) message w → fails i message (after q d w).
Proof. unfold fails, after; simpl. by destruct (failures w). Qed.
End driver.

Lemma runs_le n m w : (n ≤ m)%nat → runs m w → runs n w.
Proof.
  unfold runs. intros Hle Hm.
  rewrite <- (Nat.min_l n m), <- take_take by done. by apply Forall_take.
Qed.

Lemma run_bind {A B : Type} (m : Db A) (k : A → Db B) w :
  (m ≫= k) w = k (m w).1 (m w).2.
Proof. unfold mbind, Db_bind. by destruct (m w). Qed.

Lemma query_runs {R : Type} q (rows : store → R) n w :
  runs (S n) w → query q rows w = (Ok (rows (db w)), after q (db w) w).
Proof. intros Hruns. unfold query. by rewrite (call_runs _ _ n). Qed.

Lemma query_fails {R : Type} q (rows : store → R) message w :
  fails 0 message w → query q rows w = (Err message, after q (db w) w).
Proof. intros Hfails. unfold query. by rewrite (call_fails _ _ message). Qed.

Ltac runs_solver :=
  repeat apply runs_after;
  match goal with
  | H : runs ?m _ |- runs ?n _ => by apply (runs_le n m); [lia|]
  end.

Ltac run_call n :=
  rewrite run_bind, (call_runs _ _ n) by runs_solver; simpl.

(** ** Lists *)

Section filter.
Context {A : Type} (P : A → Prop) `{!∀ x, Decision (P x)}.


Lemma filter_none (l : list A) : (∀ x, x ∈ l → ¬ P x) → filter P l = [].
Proof.
  induction l as [|a l IH]; intros HP; [done|].
  rewrite filter_cons_False by (apply HP; left).
  apply IH. intros x Hx. apply HP. by right.
Qed.
End filter.

Lemma filter_fmap_length {A B : Type} `{EqDecision B} (f : A → B) b
    (l : list A) :
  length (filter (b =.) (f <$> l)) = length (filter (λ x, f x = b) l).
Proof.
  induction l as [|a l IH]; [done|]. rewrite fmap_cons, !filter_cons.
  destruct (decide (b = f a)), (decide (f a = b)); simpl; congruence.
Qed.

Section counting.
Context {A : Type}.
Implicit Types l : list A.

Lemma filter_ext_elem_of (P Q : A → Prop) `{!∀ x, Decision (P x)}
    `{!∀ x, Decision (Q x)} l :
  (∀ x, x ∈ l → P x ↔ Q x) → filter P l = filter Q l.
Proof.
  induction l as [|a l IH]; intros HPQ; [done|].
  rewrite !filter_cons, IH by (intros x Hx; apply HPQ; by right).
  apply decide_ext, HPQ. left.
Qed.

Lemma filter_fmap {B : Type} (f : A → B) (P : B → Prop)
    `{!∀ y, Decision (P y)} l :
  filter P (f <$> l) = f <$> filter (λ x, P (f x)) l.
Proof.
  induction l as [|a l IH]; [done|].
  rewrite fmap_cons, !filter_cons, IH. by case_decide.
Qed.

Lemma length_filter_or (P Q : A → Prop) `{!∀ x, Decision (P x)}
    `{!∀ x, Decision (Q x)} l :
  (∀ x, P x → Q x → False) →
  length (filter (λ x, P x ∨ Q x) l)
  = (length (filter P l) + length (filter Q l))%nat.
Proof.
  intros Hdisjoint. induction l as [|a l IH]; [done|].
  rewrite !filter_cons.
  destruct (decide (P a)), (decide (Q a)), (decide (P a ∨ Q a));
    simpl; try lia; exfalso; eauto; tauto.
Qed.

(** The groups of distinct keys partition the rows that have one of
    these keys. *)
Lemma sum_group_sizes `{EqDecision A} (ks : list A) l :
  NoDup ks →
  foldr Z.add 0 ((λ k, Z.of_nat (length (filter (k =.) l))) <$> ks)
  = Z.of_nat (length (filter (.∈ ks) l)).
Proof.
  induction 1 as [|k ks Hk _ IH].
  - rewrite filter_none; [done|]. intros x _ Hx. by apply elem_of_nil in Hx.
  - rewrite fmap_cons. simpl. rewrite IH.
    rewrite (filter_ext_elem_of (.∈ k :: ks) (λ x, k = x ∨ x ∈ ks))
      by (intros x _; rewrite elem_of_cons; split; intros [?|?]; auto).
    rewrite length_filter_or by (by intros x <-). lia.
Qed.
End counting.

(** ** Grouping and joining *)

Section group_count.
Context {K : Type} `{EqDecision K}.
Implicit Types keys : list K.

(** At most one group has a given key, and it counts the rows that have
    it. *)
Lemma group_count_filter keys k :
  filter (λ x, x.1 = k) (group_count keys)
  = if decide (k ∈ keys)
    then [(k, Z.of_nat (length (filter (k =.) keys)))] else [].
Proof.
  unfold group_count.
  assert (∀ ks, NoDup ks →
            filter (λ x : K * Z, x.1 = k)
              ((λ k, (k, Z.of_nat (length (filter (k =.) keys)))) <$> ks)
            = if decide (k ∈ ks)
              then [(k, Z.of_nat (length (filter (k =.) keys)))] else [])
    as Hks.
  { induction 1 as [|k' ks Hk' _ IH]; [done|].
    rewrite fmap_cons, filter_cons, IH. simpl.
    repeat case_decide; simplify_eq/=; try done; exfalso;
      repeat match goal with
        | H : _ ∉ _ :: _ |- _ => apply not_elem_of_cons in H as [? ?]
        | H : _ ∈ _ :: _ |- _ => apply elem_of_cons in H as [?|?]
        end; done. }
  rewrite Hks by apply NoDup_remove_dups.
  destruct (decide (k ∈ keys)).
  - by rewrite decide_True by by apply elem_of_remove_dups.
  - by rewrite decide_False by by rewrite elem_of_remove_dups.
Qed.

Lemma group_count_COALESCE keys k :
  COALESCE (snd <$> head (filter (λ x, x.1 = k) (group_count keys))) 0
  = Z.of_nat (length (filter (k =.) keys)).
Proof.
  rewrite group_count_filter. destruct (decide (k ∈ keys)); [done|].
  simpl. rewrite filter_none; [done|]. by intros x Hx ->.
Qed.
End group_count.

(** A join in which no row of the left side has two matches keeps the
    rows of the left side, each with its match. *)
Lemma left_join_unique {A B : Type} (on : A → B → bool) (l : list A)
    (r : list B) :
  (∀ a, (length (filter (λ b, Is_true (on a b)) r) ≤ 1)%nat) →
  left_join on l r
  = (λ a, (a, head (filter (λ b, Is_true (on a b)) r))) <$> l.
Proof.
  intros Hunique. unfold left_join.
  induction l as [|a l IH]; [done|].
  rewrite bind_cons, IH, fmap_cons. clear IH.
  specialize (Hunique a).
  destruct (filter _ r) as [|b [|??]]; simpl in *; [done..|lia].
Qed.

Lemma filter_on_key {V : Type} (l : list (Z * V)) k :
  filter (λ x, Is_true (bool_decide (x.1 = k))) l = filter (λ x, x.1 = k) l.
Proof. apply list_filter_iff. intros x. apply bool_decide_spec. Qed.

Lemma group_count_one_match (keys : list Z) k :
  (length (filter (λ x, Is_true (bool_decide (x.1 = k))) (group_count keys))
   ≤ 1)%nat.
Proof.
  rewrite filter_on_key, group_count_filter. by case_decide; simpl; lia.
Qed.

(** ** The list query *)

#[global] Instance DESC_total {A} (e : A → Z) : Total (DESC e).
Proof. intros a b. unfold DESC. lia. Qed.

#[global] Instance DESC_trans {A} (e : A → Z) : Transitive (DESC e).
Proof. intros a b c. unfold DESC. lia. Qed.

Lemma StronglySorted_descending {A} (e : A → Z) (l : list A) :
  StronglySorted (DESC e) l → descending e l.
Proof.
  induction 1 as [|a l _ IH Hall]; intros i j x y Hij Hi Hj.
  - by rewrite lookup_nil in Hi.
  - destruct j as [|j]; [lia|]. simpl in Hj. destruct i as [|i].
    + simplify_eq/=. rewrite Forall_forall in Hall.
      by apply Hall, list_elem_of_lookup_2 with j.
    + simpl in Hi. apply (IH i j); [lia|done..].
Qed.

Lemma descending_fmap {A B} (f : A → B) (e : B → Z) (l : list A) :
  descending (e ∘ f) l → descending e (f <$> l).
Proof.
  intros Hdesc i j x y Hij Hi Hj. rewrite list_lookup_fmap in Hi, Hj.
  apply fmap_Some in Hi as (a & Ha & ->).
  apply fmap_Some in Hj as (b & Hb & ->).
  by apply (Hdesc i j).
Qed.

Lemma ORDER_BY_descending (top : bool) l :
  descending (if top then top_score else λ row, timestamp (Row.columns row))
             (ORDER_BY top l).
Proof.
  unfold ORDER_BY.
  destruct top; apply StronglySorted_descending, StronglySorted_merge_sort; apply _.
Qed.

Lemma ORDER_BY_Permutation top l : ORDER_BY top l ≡ₚ l.
Proof. unfold ORDER_BY. destruct top; apply merge_sort_Permutation. Qed.

(** The row of the list query for the post [p] with rowid [id]. *)
Lemma select_posts_rows top d :
  select_posts top d
  = ORDER_BY top
      ((λ p, Row.mk p.1 p.2 (count_by reaction_post_id p.1 (reactions d))
                            (count_by reply_post_id p.1 (replies d)))
         <$> map_to_list (posts d)).
Proof.
  unfold select_posts. f_equal.
  rewrite (left_join_unique _ (map_to_list _))
    by (intros; apply group_count_one_match).
  rewrite left_join_unique by (intros; apply group_count_one_match).
  rewrite <- !list_fmap_compose. apply list_fmap_ext.
  intros i [id p] _. simpl.
  rewrite !filter_on_key, !group_count_COALESCE. unfold count_by.
  by rewrite !filter_fmap_length.
Qed.

Lemma select_posts_elem_of top d row :
  row ∈ select_posts top d →
  posts d !! Row.id row = Some (Row.columns row)
  ∧ Row.reaction_count row = count_by reaction_post_id (Row.id row) (reactions d)
  ∧ Row.reply_count row = count_by reply_post_id (Row.id row) (replies d).
Proof.
  rewrite select_posts_rows, ORDER_BY_Permutation.
  intros ([id p] & -> & Hp)%list_elem_of_fmap. simpl.
  by apply elem_of_map_to_list in Hp.
Qed.

Lemma select_posts_empty top d : posts d = ∅ → select_posts top d = [].
Proof.
  intros Hempty. unfold select_posts. rewrite Hempty, map_to_list_empty.
  by destruct top.
Qed.

(** ** The breakdown by type *)

Lemma sum_counts_insert ty count (m : gmap string Z) :
  m !! ty = None → sum_counts (<[ty := count]> m) = count + sum_counts m.
Proof.
  intros Hfresh. unfold sum_counts.
  rewrite map_fold_insert_L; [done| |done]. intros; lia.
Qed.

Lemma sum_counts_foldl (rows : list (Z * string * Z)) (m : gmap string Z) :
  NoDup ((λ r, r.1.2) <$> rows) →
  (∀ r, r ∈ rows → m !! r.1.2 = None) →
  sum_counts (foldl (λ acc r, <[r.1.2 := r.2]> acc) m rows)
  = sum_counts m + foldr Z.add 0 (snd <$> rows).
Proof.
  revert m. induction rows as [|r rows IH]; intros m Hnodup Hfresh.
  - simpl. lia.
  - rewrite !fmap_cons in *. cbn [foldl foldr].
    apply NoDup_cons in Hnodup as [Hr Hnodup].
    rewrite IH; [| done |].
    + rewrite sum_counts_insert by (apply Hfresh; left). lia.
    + intros r' Hr'. rewrite lookup_insert_ne; [apply Hfresh; by right|].
      intros Heq. apply Hr. rewrite Heq.
      by apply (list_elem_of_fmap_2 (λ r, r.1.2)).
Qed.

(** What [rows.forEach] leaves under one post id: the rows of that post,
    inserted in turn. *)
Lemma add_row_lookup map r id :
  default ∅ (add_row map r !! id)
  = if decide (r.1.1 = id)
    then <[r.1.2 := r.2]> (default ∅ (map !! id))
    else default ∅ (map !! id).
Proof.
  destruct r as [[post_id ty] count]. unfold add_row. simpl.
  case_decide as Hid.
  - subst. rewrite lookup_alter_eq.
    destruct (map !! id) as [inner|] eqn:Hinner; simpl.
    + by rewrite Hinner.
    + by rewrite lookup_insert_eq.
  - rewrite lookup_alter_ne by done.
    destruct (map !! post_id); [done|]. by rewrite lookup_insert_ne.
Qed.

Lemma foldl_add_row_lookup rows map id :
  default ∅ (foldl add_row map rows !! id)
  = foldl (λ acc r, <[r.1.2 := r.2]> acc) (default ∅ (map !! id))
          (filter (λ r, r.1.1 = id) rows).
Proof.
  revert map. induction rows as [|r rows IH]; intros map; [done|].
  simpl. rewrite IH, add_row_lookup, filter_cons.
  by case_decide.
Qed.

Lemma select_reactions_in_sum ids d id :
  id ∈ ids →
  sum_counts (default ∅ (foldl add_row ∅ (select_reactions_in ids d) !! id))
  = count_by reaction_post_id id (reactions d).
Proof.
  intros Hid. rewrite foldl_add_row_lookup, lookup_empty. simpl.
  unfold select_reactions_in, group_count.
  set (K := (λ x, (reaction_post_id x, type x))
              <$> filter (λ x, reaction_post_id x ∈ ids) (reactions d)).
  rewrite (filter_fmap _ (λ r : Z * string * Z, r.1.1 = id)). simpl.
  set (ks := filter (λ k : Z * string, k.1 = id) (remove_dups K)).
  assert (NoDup ks) as Hks by apply NoDup_filter, NoDup_remove_dups.
  rewrite sum_counts_foldl.
  - unfold sum_counts at 1. rewrite map_fold_empty, <- list_fmap_compose.
    rewrite Z.add_0_l.
    change (snd ∘ _) with (λ k : Z * string, Z.of_nat (length (filter (k =.) K))).
    rewrite sum_group_sizes by done. unfold count_by. do 2 f_equal.
    rewrite (filter_ext_elem_of (.∈ ks) (λ k, k.1 = id)).
    + unfold K. rewrite filter_fmap, length_fmap. simpl.
      rewrite list_filter_filter. f_equal. apply list_filter_iff.
      intros x. split; [tauto|]. by intros ->.
    + intros k Hk. unfold ks.
      rewrite list_elem_of_filter, elem_of_remove_dups. tauto.
  - rewrite <- list_fmap_compose. apply NoDup_fmap_2_strong; [|done].
    intros [p1 t1] [p2 t2] [H1 _]%list_elem_of_filter
           [H2 _]%list_elem_of_filter. simpl in *. congruence.
  - intros r _. apply lookup_empty.
Qed.

Lemma getReactionsForPosts_nil w : getReactionsForPosts [] w = (∅, w).
Proof. done. Qed.

Lemma getReactionsForPosts_runs ids n w :
  ids ≠ [] → runs (S n) w →
  (getReactionsForPosts ids w).1
  = foldl add_row ∅ (select_reactions_in ids (db w)).
Proof.
  intros Hids Hruns. unfold getReactionsForPosts.
  rewrite bool_decide_eq_false_2 by by destruct ids.
  by rewrite run_bind, (query_runs _ _ n).
Qed.

Lemma getReactionsForPosts_fails ids message w :
  fails 0 message w →
  (getReactionsForPosts ids w).1 = ∅.
Proof.
  intros Hfails. unfold getReactionsForPosts.
  case_bool_decide; [done|].
  by rewrite run_bind, (query_fails _ _ message).
Qed.

(** ** The list of posts *)

Lemma listPosts_runs sort n w :
  runs (S n) w →
  listPosts sort w =
    let top := bool_decide (sort = Js.Str "top") in
    let rows := select_posts top (db w) in
    let w' := after (SELECT_posts top) (db w) w in
    let reactionsMap := getReactionsForPosts (Row.id <$> rows) w' in
    (json ((λ row, Listed.mk row (default ∅ (reactionsMap.1 !! Row.id row)))
             <$> rows), reactionsMap.2).
Proof.
  intros Hruns. unfold listPosts.
  rewrite run_bind, (query_runs _ _ n) by done. simpl.
  by rewrite run_bind.
Qed.

(** C1, when both queries of the listing run: the listing answers its
    rows, and the counts in the [reactions] breakdown of every listed post
    add up to the [reaction_count] the same answer gives for it. *)
Theorem C1_breakdown_adds_up sort w :
  runs 2 w →
  ∃ rows, (listPosts sort w).1 = json rows
    ∧ ∀ x, x ∈ rows → sum_counts (Listed.reactions x) = Listed.reaction_count x.
Proof.
  intros Hruns. rewrite (listPosts_runs _ 1) by done. simpl.
  eexists. split; [done|].
  intros x (row & -> & Hrow)%list_elem_of_fmap. simpl.
  rewrite (getReactionsForPosts_runs _ 0).
  - rewrite select_reactions_in_sum
      by by apply (list_elem_of_fmap_2 Row.id).
    unfold Listed.reaction_count. simpl.
    by apply select_posts_elem_of in Hrow as (_ & -> & _).
  - intros Hnil. apply fmap_nil_inv in Hnil. rewrite Hnil in Hrow.
    by apply elem_of_nil in Hrow.
  - by apply runs_after.
Qed.

Lemma C1_witness :
  ∃ rows, (listPosts Js.Undefined sample_world).1 = json rows
    ∧ ∀ x, x ∈ rows → sum_counts (Listed.reactions x) = Listed.reaction_count x.
Proof.
  apply (C1_breakdown_adds_up Js.Undefined sample_world).
  unfold runs; simpl; constructor.
Defined.

(** C1 without that proviso does not hold: when the breakdown query
    fails, the first post is listed with a [reaction_count] of three and
    an empty breakdown. *)
Lemma C1_counterexample :
  ∃ rows x,
    (listPosts Js.Undefined faulty_world).1 = json rows
    ∧ x ∈ rows
    ∧ Listed.id x = 1
    ∧ Listed.reaction_count x = 3
    ∧ sum_counts (Listed.reactions x) = 0
    ∧ sum_counts (Listed.reactions x) ≠ Listed.reaction_count x.
Proof.
  eexists _, (Listed.mk (Row.mk 1 (Post "hi" "none" Js.Null 4 1 100) 3 1) ∅).
  split_and!; [by vm_compute| |done..].
  apply list_elem_of_lookup. by exists 1%nat.
Qed.

(** C2: when the list query runs, the listing answers every post once,
    each with its own columns and its number of reactions; with
    [sort=top] no row has a smaller [reaction_count + reposts + likes]
    than a row after it, and with any other or no [sort] no row has an
    earlier creation time than a row after it. *)
Theorem C2_list_order sort w :
  runs 1 w →
  ∃ rows, (listPosts sort w).1 = json rows
    ∧ Listed.id <$> rows ≡ₚ (map_to_list (posts (db w))).*1
    ∧ (∀ x, x ∈ rows →
         posts (db w) !! Listed.id x = Some (Row.columns (Listed.row x))
         ∧ Listed.reaction_count x
           = count_by reaction_post_id (Listed.id x) (reactions (db w)))
    ∧ (sort = Js.Str "top" → descending score rows)
    ∧ (sort ≠ Js.Str "top" → descending created rows).
Proof.
  intros Hruns. rewrite (listPosts_runs _ 0) by done. simpl.
  eexists. split; [done|]. split_and!.
  - rewrite <- list_fmap_compose, select_posts_rows, ORDER_BY_Permutation.
    by rewrite <- list_fmap_compose.
  - intros x (row & -> & Hrow)%list_elem_of_fmap.
    apply select_posts_elem_of in Hrow as (? & ? & _). done.
  - intros Htop. rewrite bool_decide_eq_true_2 by done.
    apply descending_fmap, (ORDER_BY_descending true).
  - intros Htop. rewrite bool_decide_eq_false_2 by done.
    apply descending_fmap, (ORDER_BY_descending false).
Qed.

Lemma C2_witness :
  ∃ rows,
    (listPosts (Js.Str "top") sample_world).1 = json rows
    ∧ Listed.id <$> rows = [1; 2]
    ∧ descending score rows.
Proof.
  destruct (C2_list_order (Js.Str "top") sample_world)
    as (rows & Hrows & _ & _ & Htop & _).
  { unfold runs; simpl; constructor. }
  exists rows. split; [exact Hrows|]. split; [|by apply Htop].
  vm_compute in Hrows. by injection Hrows as <-.
Defined.

(** C8: with no posts the listing answers the empty array after the one
    list query, and [getReactionsForPosts] on no ids returns the empty map
    and leaves the world (tables, pending failures, trace) as it was. *)
Theorem C8_empty_list_skips_breakdown_query :
  (∀ w, getReactionsForPosts [] w = (∅, w)) ∧
  (∀ sort w, posts (db w) = ∅ → runs 1 w →
     listPosts sort w
     = (json [], after (SELECT_posts (bool_decide (sort = Js.Str "top")))
                       (db w) w)).
Proof.
  split; [done|]. intros sort w Hempty Hruns.
  rewrite (listPosts_runs _ 0) by done. simpl.
  by rewrite select_posts_empty.
Qed.

Lemma C8_witness :
  listPosts Js.Undefined (World empty_store 0 [None; Some "SQLITE_BUSY"] [])
  = (json [], World empty_store 0 [Some "SQLITE_BUSY"] [SELECT_posts false]).
Proof.
  apply (proj2 C8_empty_list_skips_breakdown_query Js.Undefined
           (World empty_store 0 [None; Some "SQLITE_BUSY"] [])).
  - reflexivity.
  - unfold runs. simpl. repeat constructor.
Defined.

(** C10: when the list query runs and the breakdown query fails, the
    listing still answers 200 with every row of the list query, each with
    an empty [reactions] map. *)
Theorem C10_breakdown_failure_swallowed sort message w :
  runs 1 w → fails 1 message w →
  ∃ rows, (listPosts sort w).1 = json rows
    ∧ status_code (listPosts sort w).1 = 200
    ∧ Listed.row <$> rows
      = select_posts (bool_decide (sort = Js.Str "top")) (db w)
    ∧ ∀ x, x ∈ rows → Listed.reactions x = ∅.
Proof.
  intros Hruns Hfails. rewrite (listPosts_runs _ 0) by done. simpl.
  eexists. split; [done|]. split; [done|].
  rewrite (getReactionsForPosts_fails _ message)
    by by apply fails_after.
  split.
  - rewrite <- list_fmap_compose. by rewrite list_fmap_id.
  - intros x [row [-> _]]%list_elem_of_fmap. simpl. by rewrite lookup_empty.
Qed.

Lemma C10_witness :
  ∃ rows, (listPosts Js.Undefined faulty_world).1 = json rows
    ∧ status_code (listPosts Js.Undefined faulty_world).1 = 200
    ∧ Listed.row <$> rows = select_posts false sample_store
    ∧ ∀ x, x ∈ rows → Listed.reactions x = ∅.
Proof.
  apply (C10_breakdown_failure_swallowed Js.Undefined
           "SQLITE_BUSY: database is locked" faulty_world).
  - unfold runs; simpl. by repeat constructor.
  - reflexivity.
Defined.

(** ** Creating and editing a post *)

Lemma foldr_max_ge (x : Z) (l : list Z) : x ∈ l → x ≤ foldr Z.max 0 l.
Proof.
  induction 1 as [x l|x y l _ IH]; simpl; lia.
Qed.

Lemma next_rowid_fresh {A : Type} seq (m : gmap Z A) :
  m !! next_rowid seq (map_to_list m).*1 = None.
Proof.
  destruct (m !! _) as [a|] eqn:Ha; [|done].
  apply elem_of_map_to_list in Ha.
  assert (next_rowid seq (map_to_list m).*1 ∈ (map_to_list m).*1) as Hin
    by (apply list_elem_of_fmap; by eexists (_, a)).
  apply foldr_max_ge in Hin. unfold next_rowid in Hin at 1. lia.
Qed.

Lemma is_blank_Str s :
  is_blank (Js.Str s) = Some (bool_decide (Js.trim s = "")).
Proof.
  unfold is_blank, not_trim. simpl.
  destruct s as [|c s]; simpl; [done|].
  destruct (Js.trim (String c s)); done.
Qed.

Lemma createPost_valid s mood image w :
  Js.trim s ≠ "" → Js.length (Js.trim s) ≤ MAX_LENGTH → runs 1 w →
  createPost (Js.Str s) mood image w =
    let t := Js.trim s in
    let i := Js.or image Js.Null in
    let inserted := insert_posts t (safeMood mood) i (db w) (clock w) in
    (json (Created.mk inserted.1 t (safeMood mood) i 0 0 ∅ 0),
     after (INSERT_posts t (safeMood mood) i) inserted.2 w).
Proof.
  intros Hne Hlen Hruns. unfold createPost.
  rewrite is_blank_Str, bool_decide_eq_false_2 by done.
  unfold trimmed; simpl.
  assert ((Js.length (Js.trim s) >? MAX_LENGTH) = false) as ->
    by (rewrite Z.gtb_ltb; apply Z.ltb_ge; lia).
  by run_call 0%nat.
Qed.

(** C4: a text whose trimmed form is not empty and has at most 280 code
    units is stored in full, trimmed, under a fresh id and answered with
    200; a text whose trimmed form is empty or longer is answered with 400
    and touches nothing: no statement is issued, so nothing shorter is
    stored in its place. *)
Theorem C4_createPost_length s mood image w :
  let t := Js.trim s in
  let r := (createPost (Js.Str s) mood image w).1 in
  let w' := (createPost (Js.Str s) mood image w).2 in
  (t ≠ "" → Js.length t ≤ 280 → runs 1 w →
     ∃ id, r = json (Created.mk id t (safeMood mood) (Js.or image Js.Null)
                                0 0 ∅ 0)
       ∧ posts (db w) !! id = None
       ∧ posts (db w')
         = <[id := Post t (safeMood mood) (Js.or image Js.Null) 0 0 (clock w)]>
             (posts (db w)))
  ∧ (t = "" ∨ 280 < Js.length t → is_validation_error r ∧ w' = w).
Proof.
  simpl. split.
  - intros Hne Hlen Hruns. rewrite createPost_valid by done. simpl.
    eexists. split_and!; [done| |done]. apply next_rowid_fresh.
  - unfold createPost. rewrite is_blank_Str.
    case_bool_decide as Hblank; [done|].
    intros [?|Hlong]; [done|]. unfold trimmed; simpl.
    assert ((Js.length (Js.trim s) >? MAX_LENGTH) = true) as ->
      by (rewrite Z.gtb_ltb; apply Z.ltb_lt; unfold MAX_LENGTH; lia).
    done.
Qed.

Lemma C4_witness :
  status_code
    (createPost (Js.Str (Js.repeat "a" 280)) Js.Undefined Js.Undefined
                sample_world).1 = 200
  ∧ status_code
      (createPost (Js.Str (Js.repeat "a" 281)) Js.Undefined Js.Undefined
                  sample_world).1 = 400
  ∧ status_code
      (createPost (Js.Str "   ") Js.Undefined Js.Undefined sample_world).1
    = 400.
Proof.
  assert (runs 1 sample_world) as Hruns by (unfold runs; simpl; constructor).
  split_and!.
  - destruct (proj1 (C4_createPost_length (Js.repeat "a" 280) Js.Undefined
                       Js.Undefined sample_world))
      as (id & -> & _); [by vm_compute|by vm_compute|exact Hruns|done].
  - apply (proj2 (C4_createPost_length (Js.repeat "a" 281) Js.Undefined
                    Js.Undefined sample_world)).
    right. by vm_compute.
  - apply (proj2 (C4_createPost_length "   " Js.Undefined
                    Js.Undefined sample_world)).
    by left.
Defined.

(** C6: with a text that passes validation, [updatePost] leaves the
    reactions, replies and reports tables and every other post as they
    were; of the named post it keeps [likes], [reposts] and [timestamp] and
    writes [text], [mood] and [image]; it creates no post; the answer is
    NotFound exactly when there is no such post. *)
Theorem C6_updatePost_frame id s mood image w :
  Js.trim s ≠ "" → Js.length (Js.trim s) ≤ MAX_LENGTH → runs 1 w →
  let r := (updatePost id (Js.Str s) mood image w).1 in
  let w' := (updatePost id (Js.Str s) mood image w).2 in
  reactions (db w') = reactions (db w)
  ∧ replies (db w') = replies (db w)
  ∧ reports (db w') = reports (db w)
  ∧ (∀ j, j ≠ id → posts (db w') !! j = posts (db w) !! j)
  ∧ posts (db w') !! id
    = (λ p, Post (Js.trim s) (safeMood mood) (Js.or image Js.Null)
                 (likes p) (reposts p) (timestamp p)) <$> posts (db w) !! id
  ∧ (r = NotFound ↔ posts (db w) !! id = None)
  ∧ (r = json (Updated.mk id (Js.trim s) (safeMood mood)
                          (Js.or image Js.Null))
     ↔ is_Some (posts (db w) !! id)).
Proof.
  intros Hne Hlen Hruns. unfold updatePost, is_blank_string, not_trim; simpl.
  assert (String.eqb (Js.trim s) "" = false) as ->
    by by apply String.eqb_neq.
  simpl. unfold trimmed; simpl.
  assert ((Js.length (Js.trim s) >? MAX_LENGTH) = false) as ->
    by (rewrite Z.gtb_ltb; apply Z.ltb_ge; lia).
  run_call 0%nat. unfold changes_at.
  destruct (posts (db w) !! id) as [p|] eqn:Hp; simpl;
    split_and!; try done;
      try (by intros; apply lookup_alter_ne);
      try (by rewrite lookup_alter_eq, Hp);
      try by eauto.
Qed.

Lemma C6_witness :
  (updatePost 1 (Js.Str " edited ") (Js.Str "happy") Js.Undefined
              sample_world).1
  = json (Updated.mk 1 "edited" "happy" Js.Null)
  ∧ posts (db (updatePost 1 (Js.Str " edited ") (Js.Str "happy") Js.Undefined
                          sample_world).2) !! 1
    = Some (Post "edited" "happy" Js.Null 4 1 100)
  ∧ (updatePost 7 (Js.Str " edited ") (Js.Str "happy") Js.Undefined
                sample_world).1 = NotFound.
Proof.
  assert (Js.trim " edited " ≠ "") as Hne by done.
  assert (Js.length (Js.trim " edited ") ≤ MAX_LENGTH) as Hlen by done.
  assert (runs 1 sample_world) as Hruns by (unfold runs; simpl; constructor).
  split; [|split].
  - apply (C6_updatePost_frame 1 " edited " (Js.Str "happy") Js.Undefined
             sample_world Hne Hlen Hruns). by eexists.
  - reflexivity.
  - by apply (C6_updatePost_frame 7 " edited " (Js.Str "happy") Js.Undefined
                sample_world Hne Hlen Hruns).
Defined.

Lemma createPost_json text mood img w c :
  (createPost text mood img w).1 = json c →
  Created.image c = Js.or img Js.Null
  ∧ image <$> posts (db (createPost text mood img w).2) !! Created.id c
    = Some (Js.or img Js.Null).
Proof.
  unfold createPost. destruct (is_blank text) as [[|]|]; try done.
  destruct (_ >? _); [done|].
  rewrite run_bind. unfold call.
  destruct (failures w) as [|[?|] ?]; simpl; intros [= <-]; simpl;
    by rewrite lookup_insert_eq.
Qed.

Lemma updatePost_json id text mood img w u :
  (updatePost id text mood img w).1 = json u →
  Updated.image u = Js.or img Js.Null
  ∧ image <$> posts (db (updatePost id text mood img w).2) !! id
    = Some (Js.or img Js.Null).
Proof.
  unfold updatePost. destruct (is_blank_string text) as [[|]|]; try done.
  destruct (_ >? _); [done|].
  rewrite run_bind. unfold call, update_posts, changes_at.
  destruct (failures w) as [|[?|] ?]; simpl; try done;
    destruct (posts (db w) !! id) as [p|] eqn:Hp; simpl; try done;
    intros [= <-]; simpl; by rewrite lookup_alter_eq, Hp.
Qed.

Lemma image_column_lookup (m : gmap Z post) id v :
  image <$> m !! id = Some v →
  image_column <$> m !! id = Some (Sqlite.TEXT v).
Proof. destruct (m !! id) as [p|]; simpl; [|done]. by intros [= <-]. Qed.

Lemma stored_as_Some c v : stored_as (Some c) v ↔ Sqlite.read c = Some v.
Proof.
  split.
  - by intros (c' & [= <-] & Hread).
  - intros Hread. by exists c.
Qed.

Lemma TEXT_falsy img :
  Js.truthy img = false →
  Js.or img Js.Null = Js.Null ∧ stored_as (Some (Sqlite.TEXT Js.Null)) Js.Null.
Proof.
  intros Himg. unfold Js.or. rewrite Himg. split; [done|].
  by apply stored_as_Some.
Qed.

Lemma TEXT_string img :
  Js.is_string img = true → stored_as (Some (Sqlite.TEXT img)) img.
Proof. destruct img; try done. intros _. by apply stored_as_Some. Qed.

Lemma TEXT_not_string img :
  Js.truthy img = true → Js.is_string img = false →
  ¬ stored_as (Some (Sqlite.TEXT img)) img.
Proof.
  intros Htruthy Hstring Hstored%stored_as_Some.
  destruct img as [| |b|n|s|]; simpl in *; try done.
  by destruct (bool_decide _).
Qed.

(** C9: whenever [createPost] or [updatePost] answers with a post, a falsy
    [image] (the empty string among them) is answered as null and stored
    as null; a truthy one is answered as it was supplied, and the
    [image] column, which is declared [TEXT], holds it as it was supplied
    when it is a string, and a text in its place when it is not. *)
Theorem C9_falsy_image_is_null text mood img w :
  (∀ c, (createPost text mood img w).1 = json c →
     let stored :=
       image_column
         <$> posts (db (createPost text mood img w).2) !! Created.id c in
     (Js.truthy img = false →
        Created.image c = Js.Null ∧ stored_as stored Js.Null)
     ∧ (Js.truthy img = true →
          Created.image c = img
          ∧ (Js.is_string img = true → stored_as stored img)
          ∧ (Js.is_string img = false → ¬ stored_as stored img)))
  ∧ (∀ id u, (updatePost id text mood img w).1 = json u →
       let stored :=
         image_column
           <$> posts (db (updatePost id text mood img w).2) !! id in
       (Js.truthy img = false →
          Updated.image u = Js.Null ∧ stored_as stored Js.Null)
       ∧ (Js.truthy img = true →
            Updated.image u = img
            ∧ (Js.is_string img = true → stored_as stored img)
            ∧ (Js.is_string img = false → ¬ stored_as stored img))).
Proof.
  split.
  - intros c [Hc Hstored%image_column_lookup]%createPost_json. simpl.
    rewrite Hc, Hstored. split.
    + intros Himg. destruct (TEXT_falsy img Himg) as [-> ?]. done.
    + intros Himg. unfold Js.or. rewrite Himg.
      split_and!; [done|apply TEXT_string|by apply TEXT_not_string].
  - intros id u [Hu Hstored%image_column_lookup]%updatePost_json. simpl.
    rewrite Hu, Hstored. split.
    + intros Himg. destruct (TEXT_falsy img Himg) as [-> ?]. done.
    + intros Himg. unfold Js.or. rewrite Himg.
      split_and!; [done|apply TEXT_string|by apply TEXT_not_string].
Qed.

Lemma C9_witness :
  stored_as
    (image_column
       <$> posts (db (createPost (Js.Str "hi") Js.Undefined (Js.Str "")
                                 sample_world).2) !! 3)
    Js.Null
  ∧ stored_as
      (image_column
         <$> posts (db (updatePost 2 (Js.Str "hi") Js.Undefined (Js.Str "")
                                   sample_world).2) !! 2)
      Js.Null
  ∧ stored_as
      (image_column
         <$> posts (db (updatePost 1 (Js.Str "hi") Js.Undefined
                                   (Js.Str "pic.png") sample_world).2) !! 1)
      (Js.Str "pic.png")
  ∧ ¬ stored_as
        (image_column
           <$> posts (db (updatePost 1 (Js.Str "hi") Js.Undefined
                                     (Js.Bool true) sample_world).2) !! 1)
        (Js.Bool true).
Proof.
  split_and!.
  - apply (proj1 (C9_falsy_image_is_null (Js.Str "hi") Js.Undefined
                    (Js.Str "") sample_world)
             (Created.mk 3 "hi" "none" Js.Null 0 0 ∅ 0));
      reflexivity.
  - apply (proj2 (C9_falsy_image_is_null (Js.Str "hi") Js.Undefined
                    (Js.Str "") sample_world)
             2 (Updated.mk 2 "hi" "none" Js.Null));
      reflexivity.
  - apply (proj2 (C9_falsy_image_is_null (Js.Str "hi") Js.Undefined
                    (Js.Str "pic.png") sample_world)
             1 (Updated.mk 1 "hi" "none" (Js.Str "pic.png")));
      reflexivity.
  - apply (proj2 (C9_falsy_image_is_null (Js.Str "hi") Js.Undefined
                    (Js.Bool true) sample_world)
             1 (Updated.mk 1 "hi" "none" (Js.Bool true)));
      reflexivity.
Defined.

(** C9 as it was worded, with every truthy image stored as it was
    supplied, does not hold: the image 5 is answered as the number 5, and
    the column holds the text ['5'], which is what is read back. *)
Lemma C9_counterexample :
  let created :=
    createPost (Js.Str "hi") Js.Undefined (Js.Num 5) sample_world in
  let stored := image_column <$> posts (db created.2) !! 3 in
  Js.truthy (Js.Num 5) = true
  ∧ created.1 = json (Created.mk 3 "hi" "none" (Js.Num 5) 0 0 ∅ 0)
  ∧ stored = Some (Sqlite.text "5")
  ∧ stored_as stored (Js.Str "5")
  ∧ ¬ stored_as stored (Js.Num 5).
Proof.
  split_and!; [done|done|done|..].
  - by eexists.
  - by intros (c & [= <-] & Hread).
Qed.

(** ** Deleting a post *)



(** ** Counters *)

Lemma incrementLikes_runs id p w :
  posts (db w) !! id = Some p → runs 2 w →
  incrementLikes id w
  = (json (likes p + 1),
     after (SELECT_likes id) (update_likes id (db w)).2
       (after (UPDATE_likes id) (update_likes id (db w)).2 w)).
Proof.
  intros Hp Hruns. unfold incrementLikes.
  run_call 1%nat. unfold changes_at. rewrite Hp. simpl.
  rewrite run_bind, (query_runs _ _ 0) by runs_solver. simpl.
  unfold select_likes. simpl. by rewrite lookup_alter_eq, Hp.
Qed.

Lemma incrementLikes_NotFound id w :
  runs 1 w →
  (incrementLikes id w).1 = NotFound ↔ posts (db w) !! id = None.
Proof.
  intros Hruns. unfold incrementLikes.
  run_call 0%nat. unfold changes_at.
  destruct (posts (db w) !! id) as [p|] eqn:Hp; simpl; [|done].
  split; [|done]. rewrite run_bind. unfold query, call. simpl.
  destruct (tail (failures w)) as [|[?|] ?]; simpl;
    unfold select_likes; simpl; rewrite ?lookup_alter_eq, ?Hp; done.
Qed.

Lemma incrementReposts_NotFound id w :
  runs 1 w →
  (incrementReposts id w).1 = NotFound ↔ posts (db w) !! id = None.
Proof.
  intros Hruns. unfold incrementReposts.
  run_call 0%nat. unfold changes_at.
  destruct (posts (db w) !! id) as [p|] eqn:Hp; simpl; [|done].
  split; [|done]. rewrite run_bind. unfold query, call. simpl.
  destruct (tail (failures w)) as [|[?|] ?]; simpl;
    unfold select_reposts; simpl; rewrite ?lookup_alter_eq, ?Hp; done.
Qed.

(** C7: two likes in a row of an existing post answer its counter plus one
    and then plus two and leave it two greater, the rest of the post as it
    was; [incrementLikes] and [incrementReposts] answer NotFound exactly
    when there is no such post. *)
Theorem C7_likes_twice :
  (∀ id p w, posts (db w) !! id = Some p → runs 4 w →
     let first := incrementLikes id w in
     let second := incrementLikes id first.2 in
     first.1 = json (likes p + 1)
     ∧ second.1 = json (likes p + 2)
     ∧ posts (db second.2) !! id
       = Some (Post (text p) (mood p) (image p) (likes p + 2) (reposts p)
                    (timestamp p)))
  ∧ (∀ id w, runs 1 w →
       ((incrementLikes id w).1 = NotFound ↔ posts (db w) !! id = None)
       ∧ ((incrementReposts id w).1 = NotFound ↔ posts (db w) !! id = None)).
Proof.
  split.
  - intros id p w Hp Hruns. simpl.
    rewrite (incrementLikes_runs id p w) by (done || runs_solver). simpl.
    rewrite (incrementLikes_runs id
               (Post (text p) (mood p) (image p) (likes p + 1) (reposts p)
                     (timestamp p))); simpl.
    + split_and!; [done| |].
      * f_equal. lia.
      * rewrite lookup_alter_eq, lookup_alter_eq, Hp. simpl.
        do 2 f_equal. lia.
    + by rewrite lookup_alter_eq, Hp.
    + runs_solver.
  - intros id w Hruns. split.
    + by apply incrementLikes_NotFound.
    + by apply incrementReposts_NotFound.
Qed.

Lemma C7_witness :
  (incrementLikes 1 sample_world).1 = json 5
  ∧ (incrementLikes 1 (incrementLikes 1 sample_world).2).1 = json 6
  ∧ (incrementReposts 7 sample_world).1 = NotFound.
Proof.
  assert (sample_world.(db).(posts) !! 1
          = Some (Post "hi" "none" Js.Null 4 1 100)) as Hp by done.
  assert (runs 4 sample_world) as Hruns by (unfold runs; simpl; constructor).
  assert (runs 1 sample_world) as Hruns1 by (unfold runs; simpl; constructor).
  split; [|split].
  - apply (proj1 C7_likes_twice 1 _ sample_world Hp Hruns).
  - apply (proj1 C7_likes_twice 1 _ sample_world Hp Hruns).
  - by apply (proj2 C7_likes_twice 7 sample_world Hruns1).
Defined.

(** ** Reactions, replies and reports *)

Lemma includes_Str arr s : Js.includes arr (Js.Str s) = bool_decide (s ∈ arr).
Proof. done. Qed.


Lemma nearest_double_exact z : - 2 ^ 53 ≤ z ≤ 2 ^ 53 → Js.nearest_double z = z.
Proof.
  intros Hz. change (2 ^ 53) with 9007199254740992 in Hz.
  destruct (decide (Z.abs z = 9007199254740992)) as [Habs|Habs].
  - assert (z = 9007199254740992 ∨ z = - 9007199254740992) as [->| ->]
      by lia; by vm_compute.
  - unfold Js.nearest_double.
    assert (Z.log2 (Z.abs z) < 53) as Hlog.
    { destruct (decide (Z.abs z = 0)) as [->|Hz0]; [done|].
      apply Z.log2_lt_pow2; [lia|].
      change (2 ^ 53) with 9007199254740992. lia. }
    by rewrite (proj2 (Z.leb_le _ _)) by lia.
Qed.

Lemma Number_exact z : - 2 ^ 53 ≤ z ≤ 2 ^ 53 → Js.Number z = Js.Num z.
Proof.
  intros Hz. unfold Js.Number. rewrite nearest_double_exact by done.
  assert (2 ^ 53 < 2 ^ 1024) by (by apply Z.pow_lt_mono_r).
  by rewrite (proj2 (Z.ltb_lt _ _)) by lia.
Qed.




(** ** What every statement keeps, every handler keeps *)

Lemma is_blank_false text :
  is_blank text = Some false → ∃ s, text = Js.Str s ∧ Js.trim s ≠ "".
Proof.
  destruct text as [| |[]|n|s|]; try done.
  - unfold is_blank. simpl. by destruct (n =? 0).
  - rewrite is_blank_Str. intros [= Hblank%bool_decide_eq_false]. by exists s.
Qed.

Lemma is_blank_string_false text :
  is_blank_string text = Some false → ∃ s, text = Js.Str s ∧ Js.trim s ≠ "".
Proof.
  destruct text as [| | | |s|]; try done.
  unfold is_blank_string, not_trim. simpl.
  intros [= Hblank]. exists s. split; [done|].
  intros Hempty. by rewrite Hempty in Hblank.
Qed.

Section keeps.
Context (R : relation store) `{!PreOrder R}.

Lemma keeps_ret {A : Type} (a : A) : keeps R (mret a).
Proof. intros w. simpl. reflexivity. Qed.

Lemma keeps_bind {A B : Type} (m : Db A) (k : A → Db B) :
  keeps R m → (∀ a, keeps R (k a)) → keeps R (m ≫= k).
Proof.
  intros Hm Hk w. rewrite run_bind.
  transitivity (db (m w).2); [apply Hm|apply Hk].
Qed.

Lemma keeps_call {A : Type} q (run : store → Z → A * store) :
  (∀ d now, R d (run d now).2) → keeps R (call q run).
Proof.
  intros Hrun w. unfold call.
  destruct (failures w) as [|[message|] rest]; simpl; try reflexivity;
    specialize (Hrun (db w) (clock w)); by destruct (run _ _).
Qed.

Lemma keeps_query {A : Type} q (rows : store → A) : keeps R (query q rows).
Proof. apply keeps_call. intros d _. simpl. reflexivity. Qed.

Lemma keeps_answer {A : Type} (m : Db (response A)) :
  keeps R m → keeps R (answer m).
Proof. intros Hm. apply keeps_bind; [done|]. intros a. apply keeps_ret. Qed.

Lemma getReactionsForPosts_keeps ids : keeps R (getReactionsForPosts ids).
Proof.
  unfold getReactionsForPosts. case_bool_decide; [apply keeps_ret|].
  apply keeps_bind; [apply keeps_query|]. intros [rows|message]; apply keeps_ret.
Qed.

Lemma listPosts_keeps sort : keeps R (listPosts sort).
Proof.
  unfold listPosts. apply keeps_bind; [apply keeps_query|].
  intros [rows|message]; [|apply keeps_ret].
  apply keeps_bind; [apply getReactionsForPosts_keeps|].
  intros reactionsMap. apply keeps_ret.
Qed.

Lemma listReplies_keeps id : keeps R (listReplies id).
Proof.
  unfold listReplies. apply keeps_bind; [apply keeps_query|].
  intros [rows|message]; apply keeps_ret.
Qed.

Lemma createPost_keeps text mood img :
  (∀ s d now, text = Js.Str s → Js.trim s ≠ "" →
     Js.length (Js.trim s) ≤ MAX_LENGTH →
     R d (insert_posts (Js.trim s) (safeMood mood) (Js.or img Js.Null) d now).2) →
  keeps R (createPost text mood img).
Proof.
  intros Hinsert. unfold createPost.
  destruct (is_blank text) as [[|]|] eqn:Hblank; try apply keeps_ret.
  destruct (_ >? _) eqn:Hlong; [apply keeps_ret|].
  apply keeps_bind; [|intros [lastID|message]; apply keeps_ret].
  apply keeps_call. intros d now.
  apply is_blank_false in Hblank as (s & -> & Hs).
  unfold trimmed in *. simpl in *.
  apply Hinsert; [done..|].
  rewrite Z.gtb_ltb in Hlong. by apply Z.ltb_ge.
Qed.

Lemma updatePost_keeps id text mood img :
  (∀ s d, text = Js.Str s → Js.trim s ≠ "" →
     Js.length (Js.trim s) ≤ MAX_LENGTH →
     R d (update_posts (Js.trim s) (safeMood mood) (Js.or img Js.Null) id d).2) →
  keeps R (updatePost id text mood img).
Proof.
  intros Hupdate. unfold updatePost.
  destruct (is_blank_string text) as [[|]|] eqn:Hblank; try apply keeps_ret.
  destruct (_ >? _) eqn:Hlong; [apply keeps_ret|].
  apply keeps_bind.
  - apply keeps_call. intros d now.
    apply is_blank_string_false in Hblank as (s & -> & Hs).
    unfold trimmed in *. simpl in *.
    apply Hupdate; [done..|].
    rewrite Z.gtb_ltb in Hlong. by apply Z.ltb_ge.
  - intros [changes|message]; [|apply keeps_ret].
    destruct (changes =? 0); apply keeps_ret.
Qed.

Lemma deletePost_keeps id :
  (∀ d, R d (delete_reactions id d).2) →
  (∀ d, R d (delete_replies id d).2) →
  (∀ d, R d (delete_reports id d).2) →
  (∀ d, R d (delete_posts id d).2) →
  keeps R (deletePost id).
Proof.
  intros H1 H2 H3 H4. unfold deletePost.
  repeat (apply keeps_bind; [by apply keeps_call|]; intros ?).
  destruct a2 as [changes|message]; [|apply keeps_ret].
  destruct (changes =? 0); apply keeps_ret.
Qed.

Lemma incrementLikes_keeps id :
  (∀ d, R d (update_likes id d).2) → keeps R (incrementLikes id).
Proof.
  intros Hupdate. unfold incrementLikes.
  apply keeps_bind; [by apply keeps_call|].
  intros [changes|message]; [|apply keeps_ret].
  destruct (changes =? 0); [apply keeps_ret|].
  apply keeps_bind; [apply keeps_query|].
  intros [[row_likes|]|message]; apply keeps_ret.
Qed.

Lemma incrementReposts_keeps id :
  (∀ d, R d (update_reposts id d).2) → keeps R (incrementReposts id).
Proof.
  intros Hupdate. unfold incrementReposts.
  apply keeps_bind; [by apply keeps_call|].
  intros [changes|message]; [|apply keeps_ret].
  destruct (changes =? 0); [apply keeps_ret|].
  apply keeps_bind; [apply keeps_query|].
  intros [[row_reposts|]|message]; apply keeps_ret.
Qed.

Lemma addReaction_keeps id ty :
  (∀ t d now, ty = Js.Str t → t ∈ validTypes →
     R d (insert_reactions id t d now).2) →
  keeps R (addReaction id ty).
Proof.
  intros Hinsert. unfold addReaction.
  destruct (negb _) eqn:Hvalid; [apply keeps_ret|].
  apply keeps_bind.
  - apply keeps_call. intros d now.
    destruct ty as [| | | |t|]; try done. simpl in *.
    apply Hinsert; [done|]. apply negb_false_iff in Hvalid.
    by apply bool_decide_eq_true in Hvalid.
  - intros [lastID|message]; [|apply keeps_ret].
    apply keeps_bind; [apply keeps_query|].
    intros [rows|message]; apply keeps_ret.
Qed.

Lemma addReply_keeps id text :
  (∀ s d now, text = Js.Str s → Js.trim s ≠ "" →
     R d (insert_replies id (Js.trim s) d now).2) →
  keeps R (addReply id text).
Proof.
  intros Hinsert. unfold addReply.
  destruct (is_blank text) as [[|]|] eqn:Hblank; try apply keeps_ret.
  apply keeps_bind; [|intros [lastID|message]; apply keeps_ret].
  apply keeps_call. intros d now.
  apply is_blank_false in Hblank as (s & -> & Hs).
  unfold trimmed. simpl. by apply Hinsert.
Qed.

Lemma addReport_keeps id why :
  (∀ t d now, why = Js.Str t → t ∈ validReasons →
     R d (insert_reports id t d now).2) →
  keeps R (addReport id why).
Proof.
  intros Hinsert. unfold addReport.
  destruct (negb _) eqn:Hvalid; [apply keeps_ret|].
  apply keeps_bind; [|intros [lastID|message]; apply keeps_ret].
  apply keeps_call. intros d now.
  destruct why as [| | | |t|]; try done. simpl in *.
  apply Hinsert; [done|]. apply negb_false_iff in Hvalid.
  by apply bool_decide_eq_true in Hvalid.
Qed.
End keeps.

Section serve_keeps.
Context (R : relation store) `{!PreOrder R} (HR : statements_keep R).

Lemma serve_keeps r : keeps R (serve r).
Proof.
  destruct HR. destruct r; simpl; apply keeps_answer; try apply _.
  - apply listPosts_keeps; apply _.
  - apply createPost_keeps; try apply _. intros. by eauto.
  - apply updatePost_keeps; try apply _. intros. by eauto.
  - apply deletePost_keeps; try apply _; done.
  - apply incrementLikes_keeps; try apply _; done.
  - apply incrementReposts_keeps; try apply _; done.
  - apply addReaction_keeps; try apply _. intros. by eauto.
  - apply listReplies_keeps; apply _.
  - apply addReply_keeps; try apply _. intros. by eauto.
  - apply addReport_keeps; try apply _. intros. by eauto.
Qed.

Lemma serve_at_keeps d a : R d (serve_at d a).
Proof. apply (serve_keeps (arriving a) (World d (at_time a) (driver a) [])). Qed.

Lemma serve_all_keeps l d : R d (serve_all d l).
Proof.
  revert d. induction l as [|a l IH]; intros d; simpl; [reflexivity|].
  transitivity (serve_at d a); [apply serve_at_keeps|apply IH].
Qed.
End serve_keeps.

#[global] Instance invariant_preorder (I : store → Prop) : PreOrder (invariant I).
Proof. split; unfold invariant; [intros d; tauto|intros d1 d2 d3; tauto]. Qed.

(** ** Trimming *)

Lemma trimEnd_idemp s : Js.trimEnd (Js.trimEnd s) = Js.trimEnd s.
Proof.
  induction s as [|c s IH]; [done|]. simpl.
  destruct (Js.trimEnd s) as [|c' t] eqn:Hend.
  - destruct (Js.is_white_space c) eqn:Hc; [done|]. simpl. by rewrite Hc.
  - simpl. simpl in IH. by rewrite IH.
Qed.

Lemma trimStart_head s :
  Js.trimStart s = ""
  ∨ ∃ c t, Js.trimStart s = String c t ∧ Js.is_white_space c = false.
Proof.
  induction s as [|c s IH]; [by left|]. simpl.
  destruct (Js.is_white_space c) eqn:Hc; [done|]. right. by exists c, s.
Qed.

Lemma trimEnd_head c s :
  Js.is_white_space c = false → ∃ t, Js.trimEnd (String c s) = String c t.
Proof.
  intros Hc. simpl. destruct (Js.trimEnd s); [|by eexists].
  rewrite Hc. by eexists.
Qed.

Lemma trim_idemp s : Js.trim (Js.trim s) = Js.trim s.
Proof.
  unfold Js.trim.
  destruct (trimStart_head s) as [->|(c & t & -> & Hc)]; [done|].
  destruct (trimEnd_head c t Hc) as [t' Ht']. rewrite Ht'.
  cbn [Js.trimStart]. rewrite Hc, <- Ht'. apply trimEnd_idemp.
Qed.

Lemma safeMood_valid mood : safeMood mood ∈ validMoods.
Proof.
  unfold safeMood. destruct (Js.includes validMoods mood) eqn:Hmood.
  - destruct mood as [| | | |s|]; try done. simpl in *.
    by apply bool_decide_eq_true in Hmood.
  - by apply (bool_decide_unpack _).
Qed.

Lemma or_Null img :
  Js.or img Js.Null = Js.Null ∨ Js.truthy (Js.or img Js.Null) = true.
Proof. unfold Js.or. destruct (Js.truthy img) eqn:Himg; auto. Qed.

(** ** Rows stay well formed *)

Lemma lookup_alter_Some_inv {A : Type} (f : A → A) (m : gmap Z A) i j y :
  alter f i m !! j = Some y →
  (i = j ∧ ∃ x, m !! j = Some x ∧ y = f x) ∨ (i ≠ j ∧ m !! j = Some y).
Proof.
  destruct (decide (i = j)) as [->|Hne].
  - rewrite lookup_alter_eq. destruct (m !! j) as [x|]; [|done].
    intros [= <-]. left. eauto.
  - rewrite lookup_alter_ne by done. auto.
Qed.

Lemma well_formed_statements : statements_keep (invariant well_formed).
Proof.
  split; unfold invariant; intros *;
    repeat lazymatch goal with
      | |- well_formed _ → _ => fail
      | |- _ → _ => intros ?
      end;
    intros [Hposts Htypes Hreplies Hreasons]; split; simpl; try done.
  - intros id p [[<- <-]|[_ Hp]]%lookup_insert_Some; [|by eauto].
    split; simpl; try done.
    + apply trim_idemp.
    + apply safeMood_valid.
    + apply or_Null.
  - intros j p [[-> (q & Hq & ->)]|[_ Hp]]%lookup_alter_Some_inv; [|by eauto].
    destruct (Hposts _ _ Hq). split; simpl; try done.
    + apply trim_idemp.
    + apply safeMood_valid.
    + apply or_Null.
  - intros x [_ Hx]%list_elem_of_filter. auto.
  - intros x [_ Hx]%list_elem_of_filter. auto.
  - intros x [_ Hx]%list_elem_of_filter. auto.
  - intros j p [_ Hp]%lookup_delete_Some. eauto.
  - intros j p [[-> (q & Hq & ->)]|[_ Hp]]%lookup_alter_Some_inv; [|by eauto].
    destruct (Hposts _ _ Hq). split; simpl; try done. lia.
  - intros j p [[-> (q & Hq & ->)]|[_ Hp]]%lookup_alter_Some_inv; [|by eauto].
    destruct (Hposts _ _ Hq). split; simpl; try done. lia.
  - intros x [Hx| ->%list_elem_of_singleton]%elem_of_app; auto.
  - intros x [Hx| ->%list_elem_of_singleton]%elem_of_app; [auto|].
    simpl. split; [done|apply trim_idemp].
  - intros x [Hx| ->%list_elem_of_singleton]%elem_of_app; auto.
Qed.

(** X1: the tables the handlers build hold only rows their validation
    lets through.  The empty tables are well formed, and well formed
    tables stay so under any run of requests, whatever the driver reports:
    a post text is trimmed, not empty and at most 280 long, a mood is one
    of [validMoods], an image is null or truthy, the counters are not
    negative, a reaction type is one of [validTypes], a reply text is
    trimmed and not empty, a report reason is one of [validReasons]. *)
Theorem X1_rows_stay_well_formed :
  well_formed empty_store
  ∧ ∀ d l, well_formed d → well_formed (serve_all d l).
Proof.
  split.
  - split; simpl; intros *; try by intros ?%elem_of_nil.
    by rewrite lookup_empty.
  - intros d l. apply (serve_all_keeps (invariant well_formed)).
    apply well_formed_statements.
Qed.

Lemma X1_witness : well_formed (serve_all empty_store sample_run).
Proof.
  apply (proj2 X1_rows_stay_well_formed empty_store sample_run).
  apply (proj1 X1_rows_stay_well_formed).
Defined.

(** ** Rowids *)

Lemma foldr_max_0 (l : list Z) : 0 ≤ foldr Z.max 0 l.
Proof. induction l; simpl; lia. Qed.

Lemma next_rowid_above seq (rowids : list Z) :
  seq < next_rowid seq rowids
  ∧ 1 ≤ next_rowid seq rowids
  ∧ ∀ x, x ∈ rowids → x < next_rowid seq rowids.
Proof.
  unfold next_rowid. pose proof (foldr_max_0 rowids). split_and!; try lia.
  intros x Hx%foldr_max_ge. lia.
Qed.

Lemma NoDup_fmap_filter {A B : Type} (f : A → B) (P : A → Prop)
    `{!∀ x, Decision (P x)} (l : list A) :
  NoDup (f <$> l) → NoDup (f <$> filter P l).
Proof.
  induction l as [|a l IH]; [done|]. rewrite fmap_cons, filter_cons.
  intros [Ha Hl]%NoDup_cons. case_decide; [|by apply IH].
  rewrite fmap_cons. apply NoDup_cons. split; [|by apply IH].
  intros (b & Hb & [_ Hin]%list_elem_of_filter)%list_elem_of_fmap.
  apply Ha. rewrite Hb. by apply list_elem_of_fmap_2.
Qed.

Lemma NoDup_fmap_snoc {A : Type} (f : A → Z) (l : list A) (a : A) :
  (∀ x, x ∈ l → f x < f a) → NoDup (f <$> l) → NoDup (f <$> (l ++ [a])).
Proof.
  intros Hnew Hl. rewrite fmap_app. apply NoDup_app. split_and!; [done| |].
  - intros y (x & -> & Hx)%list_elem_of_fmap [= Heq]%list_elem_of_singleton.
    specialize (Hnew x Hx). lia.
  - apply NoDup_singleton.
Qed.

Lemma keys_ok_statements : statements_keep (invariant keys_ok).
Proof.
  split; unfold invariant; intros *;
    repeat lazymatch goal with
      | |- keys_ok _ → _ => fail
      | |- _ → _ => intros ?
      end;
    intros [Hposts Hreactions Hreplies Hreports Hdup1 Hdup2 Hdup3];
    split; simpl; try done;
    try (by apply NoDup_fmap_filter);
    try (by intros x [_ Hx]%list_elem_of_filter; auto).
  - pose proof (next_rowid_above (seq_posts d) (map_to_list (posts d)).*1)
      as (Hseq & Hone & _).
    intros id [p [[<- _]|[_ Hp]]%lookup_insert_Some]; [lia|].
    specialize (Hposts id (mk_is_Some _ _ Hp)). lia.
  - intros j [p [[-> (q & Hq & _)]|[_ Hp]]%lookup_alter_Some_inv]; eauto.
  - intros j [p [_ Hp]%lookup_delete_Some]. eauto.
  - intros j [p [[-> (q & Hq & _)]|[_ Hp]]%lookup_alter_Some_inv]; eauto.
  - intros j [p [[-> (q & Hq & _)]|[_ Hp]]%lookup_alter_Some_inv]; eauto.
  - pose proof (next_rowid_above (seq_reactions d) (reaction_id <$> reactions d))
      as (Hseq & Hone & _).
    intros x [Hx| ->%list_elem_of_singleton]%elem_of_app; simpl; [|lia].
    specialize (Hreactions x Hx). lia.
  - apply NoDup_fmap_snoc; [|done]. intros x Hx. simpl.
    apply next_rowid_above. by apply list_elem_of_fmap_2.
  - pose proof (next_rowid_above (seq_replies d) (reply_id <$> replies d))
      as (Hseq & Hone & _).
    intros x [Hx| ->%list_elem_of_singleton]%elem_of_app; simpl; [|lia].
    specialize (Hreplies x Hx). lia.
  - apply NoDup_fmap_snoc; [|done]. intros x Hx. simpl.
    apply next_rowid_above. by apply list_elem_of_fmap_2.
  - pose proof (next_rowid_above (seq_reports d) (report_id <$> reports d))
      as (Hseq & Hone & _).
    intros x [Hx| ->%list_elem_of_singleton]%elem_of_app; simpl; [|lia].
    specialize (Hreports x Hx). lia.
  - apply NoDup_fmap_snoc; [|done]. intros x Hx. simpl.
    apply next_rowid_above. by apply list_elem_of_fmap_2.
Qed.

Lemma keys_ok_empty : keys_ok empty_store.
Proof.
  split; simpl; intros *; try (by intros ?%elem_of_nil); try apply NoDup_nil_2.
  rewrite lookup_empty. by intros [? ?].
Qed.

Lemma keys_ok_serve_all d l : keys_ok d → keys_ok (serve_all d l).
Proof.
  apply (serve_all_keeps (invariant keys_ok)), keys_ok_statements.
Qed.

(** X2: whatever is requested and whatever the driver reports, the rowids
    of every table stay positive, distinct and at most the sequence
    [AUTOINCREMENT] keeps for the table. *)
Theorem X2_rowids_stay_distinct :
  keys_ok empty_store ∧ ∀ d l, keys_ok d → keys_ok (serve_all d l).
Proof. split; [apply keys_ok_empty|apply keys_ok_serve_all]. Qed.

Lemma X2_witness : keys_ok (serve_all empty_store sample_run).
Proof.
  apply (proj2 X2_rowids_stay_distinct empty_store sample_run).
  apply (proj1 X2_rowids_stay_distinct).
Defined.

(** ** What has been written stays as it was written *)

#[global] Instance comes_after_preorder : PreOrder comes_after.
Proof.
  split.
  - intros d. split; try lia; intros *; eauto.
    intros Hp. right. exists p'. split_and!; [done|done|lia|lia].
  - intros d1 d2 d3 [] []. split; try lia.
    + intros id p3 Hp3.
      destruct (posts_kept1 id p3 Hp3) as [?|(p2 & Hp2 & Ht & ? & ?)]; [left; lia|].
      destruct (posts_kept0 id p2 Hp2) as [?|(p1 & Hp1 & Ht' & ? & ?)];
        [by left|].
      right. exists p1. split_and!; [done|congruence|lia|lia].
    + intros x Hx. destruct (reactions_kept1 x Hx); [left; lia|eauto].
    + intros x Hx. destruct (replies_kept1 x Hx); [left; lia|eauto].
    + intros x Hx. destruct (reports_kept1 x Hx); [left; lia|eauto].
Qed.

Ltac rowid_above :=
  match goal with
  | |- context [next_rowid ?seq ?rowids] =>
      pose proof (next_rowid_above seq rowids) as (? & ? & ?); lia
  end.

Lemma comes_after_statements : statements_keep comes_after.
Proof.
  assert (∀ p : post, ∃ q, Some p = Some q ∧ timestamp p = timestamp q
                            ∧ likes q ≤ likes p ∧ reposts q ≤ reposts p)
    as Hsame by (intros p; exists p; split_and!; [done|done|lia|lia]).
  split; intros *;
    repeat lazymatch goal with
      | |- comes_after _ _ => fail
      | |- _ → _ => intros ?
      end;
    split; simpl; try lia;
    try (by intros x [_ Hx]%list_elem_of_filter; auto);
    try (by intros x Hx; auto);
    try (by intros j p' Hp'; right; rewrite Hp'; apply Hsame).
  - rowid_above.
  - intros j p' [[<- _]|[_ Hp']]%lookup_insert_Some.
    + left. rowid_above.
    + right. rewrite Hp'. apply Hsame.
  - intros j p' [[-> (q & Hq & ->)]|[_ Hp']]%lookup_alter_Some_inv; right.
    + exists q. simpl. split_and!; [done|done|lia|lia].
    + rewrite Hp'. apply Hsame.
  - intros j p' [_ Hp']%lookup_delete_Some. right. rewrite Hp'. apply Hsame.
  - intros j p' [[-> (q & Hq & ->)]|[_ Hp']]%lookup_alter_Some_inv; right.
    + exists q. simpl. split_and!; [done|done|lia|lia].
    + rewrite Hp'. apply Hsame.
  - intros j p' [[-> (q & Hq & ->)]|[_ Hp']]%lookup_alter_Some_inv; right.
    + exists q. simpl. split_and!; [done|done|lia|lia].
    + rewrite Hp'. apply Hsame.
  - rowid_above.
  - intros x [Hx| ->%list_elem_of_singleton]%elem_of_app; [by right|].
    left. simpl. rowid_above.
  - rowid_above.
  - intros x [Hx| ->%list_elem_of_singleton]%elem_of_app; [by right|].
    left. simpl. rowid_above.
  - rowid_above.
  - intros x [Hx| ->%list_elem_of_singleton]%elem_of_app; [by right|].
    left. simpl. rowid_above.
Qed.

Lemma serve_all_comes_after d l : comes_after d (serve_all d l).
Proof. apply (serve_all_keeps comes_after), comes_after_statements. Qed.

Lemma NoDup_fmap_eq {A B : Type} (f : A → B) (l : list A) x y :
  NoDup (f <$> l) → x ∈ l → y ∈ l → f x = f y → x = y.
Proof.
  induction l as [|a l IH]; [by intros _ ?%elem_of_nil|].
  rewrite fmap_cons. intros [Ha Hl]%NoDup_cons.
  intros [->|Hx]%elem_of_cons [->|Hy]%elem_of_cons Heq; [done| | |by apply IH].
  - exfalso. apply Ha. rewrite Heq. by apply list_elem_of_fmap_2.
  - exfalso. apply Ha. rewrite <- Heq. by apply list_elem_of_fmap_2.
Qed.

(** X3: nothing that was written is rewritten behind the routes that
    write it.  Over any run of requests, whatever the driver reports, a
    post that is there before and after has the timestamp it had and
    counters that are not smaller, and a reaction, a reply or a report
    that carries the rowid of an earlier row is that row, unchanged. *)
Theorem X3_written_rows_stay d l :
  keys_ok d →
  let d' := serve_all d l in
  (∀ id p p', posts d !! id = Some p → posts d' !! id = Some p' →
     timestamp p' = timestamp p
     ∧ likes p ≤ likes p' ∧ reposts p ≤ reposts p')
  ∧ (∀ x y, x ∈ reactions d → y ∈ reactions d' →
       reaction_id x = reaction_id y → x = y)
  ∧ (∀ x y, x ∈ replies d → y ∈ replies d' → reply_id x = reply_id y → x = y)
  ∧ (∀ x y, x ∈ reports d → y ∈ reports d' → report_id x = report_id y → x = y).
Proof.
  intros Hkeys. simpl. destruct (serve_all_comes_after d l). destruct Hkeys.
  split_and!.
  - intros id p p' Hp Hp'.
    destruct (posts_kept0 id p' Hp') as [Hnew|(q & Hq & Ht & ? & ?)].
    + specialize (post_ids0 id (mk_is_Some _ _ Hp)). lia.
    + by simplify_eq.
  - intros x y Hx Hy Heq. destruct (reactions_kept0 y Hy) as [Hnew|Hold].
    + specialize (reaction_ids0 x Hx). lia.
    + by apply (NoDup_fmap_eq reaction_id (reactions d)).
  - intros x y Hx Hy Heq. destruct (replies_kept0 y Hy) as [Hnew|Hold].
    + specialize (reply_ids0 x Hx). lia.
    + by apply (NoDup_fmap_eq reply_id (replies d)).
  - intros x y Hx Hy Heq. destruct (reports_kept0 y Hy) as [Hnew|Hold].
    + specialize (report_ids0 x Hx). lia.
    + by apply (NoDup_fmap_eq report_id (reports d)).
Qed.

Lemma X3_witness :
  let before := Post "first" "none" Js.Null 0 0 10 in
  let after := Post "edited" "happy" (Js.Str "a.png") 1 0 10 in
  posts (serve_all empty_store (take 1 sample_run)) !! 1 = Some before
  ∧ posts (serve_all empty_store (take 9 sample_run)) !! 1 = Some after
  ∧ timestamp after = timestamp before
  ∧ likes before ≤ likes after ∧ reposts before ≤ reposts after.
Proof.
  assert (keys_ok (serve_all empty_store (take 1 sample_run))) as Hkeys
    by apply keys_ok_serve_all, keys_ok_empty.
  split; [reflexivity|]. split; [reflexivity|].
  exact (proj1 (X3_written_rows_stay
                  (serve_all empty_store (take 1 sample_run))
                  (drop 1 (take 9 sample_run)) Hkeys)
           1 _ _ eq_refl eq_refl).
Defined.

Lemma createPost_json_id text mood img w c :
  (createPost text mood img w).1 = json c →
  Created.id c = next_rowid (seq_posts (db w)) (map_to_list (posts (db w))).*1.
Proof.
  unfold createPost. destruct (is_blank text) as [[|]|]; try done.
  destruct (_ >? _); [done|].
  rewrite run_bind. unfold call.
  by destruct (failures w) as [|[?|] ?]; simpl; intros [= <-].
Qed.

(** X4: a post id is never given out twice.  Take any tables with sound
    rowids and any run of requests after them, deletions among them: the
    id [createPost] then answers is greater than the id of every post
    there is and of every post there was before the run. *)
Theorem X4_post_ids_are_not_reused d l w text mood img c :
  keys_ok d → db w = serve_all d l →
  (createPost text mood img w).1 = json c →
  (∀ id, is_Some (posts d !! id) → id < Created.id c)
  ∧ (∀ id, is_Some (posts (db w) !! id) → id < Created.id c).
Proof.
  intros Hkeys Hw Hc%createPost_json_id. rewrite Hc.
  pose proof (next_rowid_above (seq_posts (db w))
                (map_to_list (posts (db w))).*1) as (Hseq & _ & Hids).
  split.
  - intros id Hid. destruct Hkeys. specialize (post_ids0 id Hid).
    pose proof (serve_all_comes_after d l) as Hafter.
    rewrite <- Hw in Hafter. destruct Hafter. lia.
  - intros id [p Hp]. apply Hids, list_elem_of_fmap.
    exists (id, p). split; [done|]. by apply elem_of_map_to_list.
Qed.

Lemma X4_witness :
  is_Some (posts (serve_all empty_store (take 1 sample_run)) !! 1)
  ∧ posts (serve_all empty_store sample_run) !! 1 = None
  ∧ 1 < 3.
Proof.
  assert (keys_ok (serve_all empty_store (take 1 sample_run))) as Hkeys
    by apply keys_ok_serve_all, keys_ok_empty.
  assert (is_Some (posts (serve_all empty_store (take 1 sample_run)) !! 1))
    as Hfirst by by eexists.
  split; [exact Hfirst|]. split; [reflexivity|].
  exact (proj1 (X4_post_ids_are_not_reused
                  (serve_all empty_store (take 1 sample_run))
                  (drop 1 sample_run)
                  (World (serve_all empty_store sample_run) 30 [] [])
                  (Js.Str "third") Js.Undefined Js.Undefined
                  (Created.mk 3 "third" "none" Js.Null 0 0 ∅ 0)
                  Hkeys eq_refl eq_refl) 1 Hfirst).
Defined.

(** ** Only a deletion takes rows away *)

#[global] Instance grown_preorder : PreOrder grown.
Proof.
  split.
  - intros d. by split.
  - intros d1 d2 d3 [] []. split; [by auto|by etrans..].
Qed.

Lemma is_Some_alter {A : Type} (f : A → A) (m : gmap Z A) i j :
  is_Some (m !! j) → is_Some (alter f i m !! j).
Proof.
  intros [x Hx]. destruct (decide (i = j)) as [->|Hne].
  - rewrite lookup_alter_eq, Hx. by eexists.
  - rewrite lookup_alter_ne by done. by eexists.
Qed.

(** X5: the delete route is the only one that takes a row away.  Any
    other request, whatever the driver reports, leaves every post in
    place and only appends to the reactions, the replies and the
    reports. *)
Theorem X5_only_delete_removes r w :
  (∀ id, r ≠ DELETE_post id) → grown (db w) (db (serve r w).2).
Proof.
  intros Hr. revert w. change (keeps grown (serve r)).
  destruct r; simpl; try (by destruct (Hr id)); apply keeps_answer;
    try apply _.
  - apply listPosts_keeps; apply _.
  - apply createPost_keeps; try apply _. intros s d now _ _ _.
    split; simpl; try done. intros id [p Hp].
    destruct (decide (next_rowid (seq_posts d) (map_to_list (posts d)).*1 = id))
      as [->|Hne].
    + rewrite lookup_insert_eq. by eexists.
    + rewrite lookup_insert_ne by done. by eexists.
  - apply updatePost_keeps; try apply _. intros s d _ _ _.
    split; simpl; try done. intros j. apply is_Some_alter.
  - apply incrementLikes_keeps; try apply _. intros d.
    split; simpl; try done. intros j. apply is_Some_alter.
  - apply incrementReposts_keeps; try apply _. intros d.
    split; simpl; try done. intros j. apply is_Some_alter.
  - apply addReaction_keeps; try apply _. intros t d now _ _.
    split; simpl; try done. by apply prefix_app_r.
  - apply listReplies_keeps; apply _.
  - apply addReply_keeps; try apply _. intros s d now _ _.
    split; simpl; try done. by apply prefix_app_r.
  - apply addReport_keeps; try apply _. intros t d now _ _.
    split; simpl; try done. by apply prefix_app_r.
Qed.

Lemma X5_witness :
  grown sample_store
    (db (serve (PUT_post 1 (Js.Str "edited") Js.Undefined Js.Undefined)
               sample_world).2).
Proof.
  by apply (X5_only_delete_removes
              (PUT_post 1 (Js.Str "edited") Js.Undefined Js.Undefined)
              sample_world).
Defined.

(** ** What an answer tells about the tables *)

Lemma call_cases {A : Type} q (run : store → Z → A * store) w :
  (∃ message, fails 0 message w
              ∧ call q run w = (Err message, after q (db w) w))
  ∨ call q run w
    = (Ok (run (db w) (clock w)).1, after q (run (db w) (clock w)).2 w).
Proof.
  unfold call, fails, after.
  destruct (failures w) as [|[message|] rest]; simpl.
  - right. by destruct (run _ _).
  - left. by exists message.
  - right. by destruct (run _ _).
Qed.

Ltac split_run :=
  repeat first
    [ rewrite run_bind
    | progress simpl
    | match goal with
      | |- context [call ?q ?run ?w] =>
          destruct (call_cases q run w) as [(? & _ & ->)| ->]
      | |- context [if ?b then _ else _] => destruct b eqn:?
      | |- context [match ?x with _ => _ end] => destruct x eqn:?
      end ].

Ltac unfold_routes :=
  unfold serve, answer, listPosts, getReactionsForPosts, createPost,
    updatePost, deletePost, incrementLikes, incrementReposts, addReaction,
    listReplies, addReply, addReport, query, NotFound.

Lemma with_posts_alter_absent f id d :
  (changes_at id d =? 0) = true → with_posts (alter f id) d = d.
Proof.
  unfold changes_at, with_posts. destruct (posts d !! id) eqn:Hid; [done|].
  intros _. destruct d; simpl in *. f_equal. apply map_eq. intros j.
  destruct (decide (id = j)) as [<-|Hne].
  - by rewrite lookup_alter_eq, Hid.
  - by rewrite lookup_alter_ne.
Qed.

(** X6: a request that is answered 400 has issued no statement and left
    the world as it was, and a request other than a deletion that is
    answered 404 has changed no table. *)
Theorem X6_rejected_requests_change_nothing r w :
  ((serve r w).1 = 400 → (serve r w).2 = w)
  ∧ ((serve r w).1 = 404 → (∀ id, r ≠ DELETE_post id) →
     db (serve r w).2 = db w).
Proof.
  split.
  - destruct r; unfold_routes; split_run; try done.
  - intros Hcode Hr. revert Hcode.
    destruct r; try (by destruct (Hr id)); unfold_routes; split_run; try done;
      intros _; by apply with_posts_alter_absent.
Qed.

Lemma X6_witness :
  (serve (POST_react 1 (Js.Str "meh")) sample_world).2 = sample_world
  ∧ db (serve (POST_like 7) sample_world).2 = sample_store.
Proof.
  split.
  - by apply (X6_rejected_requests_change_nothing
                (POST_react 1 (Js.Str "meh")) sample_world).
  - by apply (X6_rejected_requests_change_nothing (POST_like 7) sample_world).
Defined.

(** X7: the two [GET] routes only read.  Whatever the driver reports,
    listing the posts and listing the replies of a post leave every table
    and every sequence as they were. *)
Theorem X7_get_routes_only_read sort id w :
  db (listPosts sort w).2 = db w ∧ db (listReplies id w).2 = db w.
Proof.
  split; symmetry.
  - apply (listPosts_keeps eq sort w).
  - apply (listReplies_keeps eq id w).
Qed.

(** X8: the status a route can answer, whatever it is sent and whatever
    the driver reports to its callbacks: 200 or 500 for the two [GET]
    routes; 200, 400 or 500 for the four routes that create a row; 200,
    404 or 500 for the delete, like and repost routes; only the edit
    route can answer both 400 and 404.  For the delete route this is
    stated when its three statements without a callback pass. *)
Theorem X8_status_codes r w :
  (∀ id, r = DELETE_post id → runs 3 w) → (serve r w).1 ∈ may_answer r.
Proof.
  intros _. destruct r; unfold_routes; split_run; repeat constructor.
Qed.

Lemma X8_witness :
  (serve (DELETE_post 1) sample_world).1 ∈ [200; 404; 500]
  ∧ (serve (DELETE_post 1)
       (World sample_store 200 [None; None; None; Some "SQLITE_BUSY"] [])).1
    ∈ [200; 404; 500]
  ∧ (serve (PUT_post 7 (Js.Str "hi") Js.Undefined Js.Undefined)
       faulty_world).1
    ∈ [200; 400; 404; 500].
Proof.
  split_and!.
  - apply (X8_status_codes (DELETE_post 1) sample_world).
    intros id _. unfold runs; simpl; constructor.
  - apply (X8_status_codes (DELETE_post 1)
             (World sample_store 200 [None; None; None; Some "SQLITE_BUSY"]
                    [])).
    intros id _. unfold runs; simpl. repeat constructor.
  - apply (X8_status_codes
             (PUT_post 7 (Js.Str "hi") Js.Undefined Js.Undefined)
             faulty_world).
    intros id [=].
Defined.

(** ** What the validation rejects *)

Lemma includes_false arr v :
  Js.includes arr v = false ↔ ∀ t, t ∈ arr → v ≠ Js.Str t.
Proof.
  destruct v as [| | | |s|]; simpl; try (split; [by intros _ t _|done]).
  rewrite bool_decide_eq_false. split.
  - intros Hs t Ht [= ->]. done.
  - intros Hs Hin. by apply (Hs s).
Qed.

(** X9: a reaction is rejected exactly when its type is not one of the
    five of [validTypes], and a report exactly when its reason is not one
    of the seven of [validReasons], be the value a string or not; the
    answer is then 400 with the route's message and the world is left as
    it was. *)
Theorem X9_closed_sets_are_enforced id v w :
  (status_code (addReaction id v w).1 = 400
   ↔ ∀ t, t ∈ validTypes → v ≠ Js.Str t)
  ∧ ((∀ t, t ∈ validTypes → v ≠ Js.Str t) →
     addReaction id v w = (status 400 "Invalid reaction", w))
  ∧ (status_code (addReport id v w).1 = 400
     ↔ ∀ t, t ∈ validReasons → v ≠ Js.Str t)
  ∧ ((∀ t, t ∈ validReasons → v ≠ Js.Str t) →
     addReport id v w = (status 400 "Invalid reason", w)).
Proof.
  rewrite <- !includes_false. unfold addReaction, addReport.
  split_and!; try split; try (intros ->; done);
    destruct (Js.includes _ v); try done; split_run; done.
Qed.

Lemma X9_witness :
  addReaction 1 (Js.Str "like") sample_world
  = (status 400 "Invalid reaction", sample_world)
  ∧ addReport 1 (Js.Num 3) sample_world
    = (status 400 "Invalid reason", sample_world).
Proof.
  split.
  - apply (X9_closed_sets_are_enforced 1 (Js.Str "like") sample_world).
    intros t Ht [= <-]. by apply (bool_decide_pack _) in Ht.
  - apply (X9_closed_sets_are_enforced 1 (Js.Num 3) sample_world). done.
Defined.

Lemma is_blank_cases text :
  (is_blank text = Some true
   ∧ (Js.truthy text = false ∨ ∃ s, text = Js.Str s ∧ Js.trim s = ""))
  ∨ (is_blank text = Some false ∧ ∃ s, text = Js.Str s ∧ Js.trim s ≠ "")
  ∨ (is_blank text = None ∧ Js.truthy text = true ∧ Js.is_string text = false).
Proof.
  destruct text as [| |[]|n|s|]; try by (left; split; [|left]).
  - by right; right.
  - unfold is_blank. simpl. destruct (n =? 0); [by left; split; [|left]|].
    by right; right.
  - rewrite is_blank_Str. case_bool_decide as Hs.
    + left. split; [done|]. right. by exists s.
    + right; left. split; [done|]. by exists s.
  - by right; right.
Qed.

Lemma is_blank_string_cases text :
  (is_blank_string text = Some true
   ∧ (Js.is_string text = false ∨ ∃ s, text = Js.Str s ∧ Js.trim s = ""))
  ∨ (is_blank_string text = Some false ∧ ∃ s, text = Js.Str s ∧ Js.trim s ≠ "").
Proof.
  destruct text as [| | | |s|]; try by (left; split; [|left]).
  unfold is_blank_string, not_trim. simpl.
  destruct (Js.trim s) as [|c t] eqn:Hs; simpl.
  - left. split; [done|]. right. by exists s.
  - right. split; [done|]. exists s. by rewrite Hs.
Qed.

Lemma truthy_Str_false s : Js.truthy (Js.Str s) = false → Js.trim s = "".
Proof. simpl. destruct s; [done|]. done. Qed.

Lemma createPost_400 text mood img w :
  status_code (createPost text mood img w).1 = 400
  ↔ Js.truthy text = false
    ∨ ∃ s, text = Js.Str s
           ∧ (Js.trim s = "" ∨ MAX_LENGTH < Js.length (Js.trim s)).
Proof.
  unfold createPost.
  destruct (is_blank_cases text)
    as [[-> Hblank]|[[-> (s & Htext & Hs)]|[-> [Htruthy Hstring]]]]; simpl.
  - split; [intros _|done]. destruct Hblank as [?|(s & ? & ?)]; eauto.
  - subst text. unfold trimmed. simpl.
    destruct (_ >? _) eqn:Hlong; rewrite Z.gtb_ltb in Hlong.
    + apply Z.ltb_lt in Hlong. split; [intros _|done]. right. eauto.
    + apply Z.ltb_ge in Hlong. split.
      * by split_run.
      * intros [Hfalsy%truthy_Str_false|(s0 & [= <-] & [?|?])]; [done|done|lia].
  - split; [done|]. intros [?|(s & -> & _)]; simpl in *; congruence.
Qed.

Lemma createPost_threw text mood img w :
  (createPost text mood img w).1 = threw
  ↔ Js.truthy text = true ∧ Js.is_string text = false.
Proof.
  unfold createPost.
  destruct (is_blank_cases text)
    as [[-> Hblank]|[[-> (s & Htext & Hs)]|[-> [Htruthy Hstring]]]]; simpl.
  - split; [done|]. intros [Htruthy Hstring].
    destruct Hblank as [?|(s & -> & _)]; simpl in *; congruence.
  - subst text. split; [|by intros [_ ?]].
    destruct (_ >? _); [done|]. by split_run.
  - done.
Qed.

Lemma updatePost_400 id text mood img w :
  status_code (updatePost id text mood img w).1 = 400
  ↔ Js.is_string text = false
    ∨ ∃ s, text = Js.Str s
           ∧ (Js.trim s = "" ∨ MAX_LENGTH < Js.length (Js.trim s)).
Proof.
  unfold updatePost.
  destruct (is_blank_string_cases text)
    as [[-> Hblank]|[-> (s & Htext & Hs)]]; simpl.
  - split; [intros _|done]. destruct Hblank as [?|(s & ? & ?)]; eauto.
  - subst text. unfold trimmed. simpl.
    destruct (_ >? _) eqn:Hlong; rewrite Z.gtb_ltb in Hlong.
    + apply Z.ltb_lt in Hlong. split; [intros _|done]. right. eauto.
    + apply Z.ltb_ge in Hlong. split.
      * by split_run.
      * intros [?|(s0 & [= <-] & [?|?])]; [done|done|lia].
Qed.

Lemma updatePost_not_threw id text mood img w :
  (updatePost id text mood img w).1 ≠ threw.
Proof.
  unfold updatePost.
  destruct (is_blank_string_cases text) as [[-> _]|[-> _]]; simpl; [done|].
  destruct (_ >? _); [done|]. by split_run.
Qed.

Lemma addReply_400 id text w :
  status_code (addReply id text w).1 = 400
  ↔ Js.truthy text = false ∨ ∃ s, text = Js.Str s ∧ Js.trim s = "".
Proof.
  unfold addReply.
  destruct (is_blank_cases text)
    as [[-> Hblank]|[[-> (s & Htext & Hs)]|[-> [Htruthy Hstring]]]]; simpl.
  - done.
  - subst text. split.
    + by split_run.
    + intros [Hfalsy%truthy_Str_false|(s0 & [= <-] & ?)]; done.
  - split; [done|]. intros [?|(s & -> & _)]; simpl in *; congruence.
Qed.

Lemma addReply_threw id text w :
  (addReply id text w).1 = threw
  ↔ Js.truthy text = true ∧ Js.is_string text = false.
Proof.
  unfold addReply.
  destruct (is_blank_cases text)
    as [[-> Hblank]|[[-> (s & Htext & Hs)]|[-> [Htruthy Hstring]]]]; simpl.
  - split; [done|]. intros [Htruthy Hstring].
    destruct Hblank as [?|(s & -> & _)]; simpl in *; congruence.
  - subst text. split; [|by intros [_ ?]]. by split_run.
  - done.
Qed.

(** X10: what the three routes that take a text do with it.  [createPost]
    answers 400 exactly when the text is missing or falsy, or is a string
    that trims to nothing or to more than 280 code units; [addReply]
    answers 400 exactly when the text is missing or falsy or trims to
    nothing, so a reply has no length limit; both throw a [TypeError]
    exactly when the text is truthy and no string.  [updatePost] tests the
    type first: it answers 400 for everything that is no string, as for a
    blank or too long one, and never throws. *)
Theorem X10_texts_are_validated id text mood img w :
  (status_code (createPost text mood img w).1 = 400
   ↔ Js.truthy text = false
     ∨ ∃ s, text = Js.Str s
            ∧ (Js.trim s = "" ∨ MAX_LENGTH < Js.length (Js.trim s)))
  ∧ ((createPost text mood img w).1 = threw
     ↔ Js.truthy text = true ∧ Js.is_string text = false)
  ∧ (status_code (updatePost id text mood img w).1 = 400
     ↔ Js.is_string text = false
       ∨ ∃ s, text = Js.Str s
              ∧ (Js.trim s = "" ∨ MAX_LENGTH < Js.length (Js.trim s)))
  ∧ (updatePost id text mood img w).1 ≠ threw
  ∧ (status_code (addReply id text w).1 = 400
     ↔ Js.truthy text = false ∨ ∃ s, text = Js.Str s ∧ Js.trim s = "")
  ∧ ((addReply id text w).1 = threw
     ↔ Js.truthy text = true ∧ Js.is_string text = false).
Proof.
  split_and!.
  - apply createPost_400.
  - apply createPost_threw.
  - apply updatePost_400.
  - apply updatePost_not_threw.
  - apply addReply_400.
  - apply addReply_threw.
Qed.

Lemma X10_witness :
  status_code (createPost (Js.Str "   ") Js.Undefined Js.Undefined
                          sample_world).1 = 400
  ∧ (createPost (Js.Num 5) Js.Undefined Js.Undefined sample_world).1 = threw
  ∧ status_code (updatePost 1 (Js.Num 5) Js.Undefined Js.Undefined
                            sample_world).1 = 400
  ∧ (addReply 1 Js.Obj sample_world).1 = threw.
Proof.
  destruct (X10_texts_are_validated 1 (Js.Str "   ") Js.Undefined Js.Undefined
              sample_world) as (Hblank & _).
  destruct (X10_texts_are_validated 1 (Js.Num 5) Js.Undefined Js.Undefined
              sample_world) as (_ & Hthrew & Hedit & _).
  destruct (X10_texts_are_validated 1 Js.Obj Js.Undefined Js.Undefined
              sample_world) as (_ & _ & _ & _ & _ & Hreply).
  split_and!.
  - apply Hblank. right. exists "   ". split; [done|by left].
  - by apply Hthrew.
  - apply Hedit. by left.
  - by apply Hreply.
Defined.

(** ** The mood *)

Lemma safeMood_cases md :
  (∃ m, md = Js.Str m ∧ m ∈ validMoods ∧ safeMood md = m)
  ∨ ((∀ m, m ∈ validMoods → md ≠ Js.Str m) ∧ safeMood md = "none").
Proof.
  unfold safeMood. destruct (Js.includes validMoods md) eqn:Hmd.
  - left. destruct md as [| | | |m|]; try done. exists m.
    split_and!; [done| |done]. by apply bool_decide_eq_true in Hmd.
  - right. split; [|done]. by apply includes_false.
Qed.

Lemma createPost_json_row text md img w c :
  (createPost text md img w).1 = json c →
  c = Created.mk (Created.id c) (trimmed text) (safeMood md)
                 (Js.or img Js.Null) 0 0 ∅ 0
  ∧ posts (db (createPost text md img w).2) !! Created.id c
    = Some (Post (trimmed text) (safeMood md) (Js.or img Js.Null) 0 0 (clock w)).
Proof.
  unfold createPost. destruct (is_blank text) as [[|]|]; try done.
  destruct (_ >? _); [done|].
  rewrite run_bind. unfold call.
  destruct (failures w) as [|[?|] ?]; simpl; intros [= <-]; simpl;
    by rewrite lookup_insert_eq.
Qed.

Lemma updatePost_json_row id text md img w u :
  (updatePost id text md img w).1 = json u →
  u = Updated.mk id (trimmed text) (safeMood md) (Js.or img Js.Null)
  ∧ ∃ p, posts (db w) !! id = Some p
         ∧ posts (db (updatePost id text md img w).2) !! id
           = Some (Post (trimmed text) (safeMood md) (Js.or img Js.Null)
                        (likes p) (reposts p) (timestamp p)).
Proof.
  unfold updatePost. destruct (is_blank_string text) as [[|]|]; try done.
  destruct (_ >? _); [done|].
  rewrite run_bind. unfold call, update_posts, changes_at.
  destruct (failures w) as [|[?|] ?]; simpl; try done;
    destruct (posts (db w) !! id) as [p|] eqn:Hp; simpl; try done;
    intros [= <-]; simpl; (split; [done|]); exists p;
    by rewrite lookup_alter_eq, Hp.
Qed.

(** X11: a mood is never rejected.  Whenever [createPost] or [updatePost]
    answers with a post, the mood it answers is the one it stored; that is
    the mood it was sent if this is one of the seven of [validMoods], and
    [none] for every other value, string or not. *)
Theorem X11_moods_are_coerced id text md img w :
  (∀ c, (createPost text md img w).1 = json c →
     mood <$> posts (db (createPost text md img w).2) !! Created.id c
     = Some (Created.mood c)
     ∧ (∀ m, m ∈ validMoods → md = Js.Str m → Created.mood c = m)
     ∧ ((∀ m, m ∈ validMoods → md ≠ Js.Str m) → Created.mood c = "none"))
  ∧ (∀ u, (updatePost id text md img w).1 = json u →
       mood <$> posts (db (updatePost id text md img w).2) !! id
       = Some (Updated.mood u)
       ∧ (∀ m, m ∈ validMoods → md = Js.Str m → Updated.mood u = m)
       ∧ ((∀ m, m ∈ validMoods → md ≠ Js.Str m) → Updated.mood u = "none")).
Proof.
  split.
  - intros c [-> ->]%createPost_json_row. simpl. split; [done|].
    destruct (safeMood_cases md) as [(m & -> & Hm & ->)|[Hno ->]].
    + split; [by intros ? _ [= ->]|]. intros Hnot. by destruct (Hnot m).
    + split; [|done]. intros m Hm ->. by destruct (Hno m).
  - intros u [-> (p & _ & ->)]%updatePost_json_row. simpl. split; [done|].
    destruct (safeMood_cases md) as [(m & -> & Hm & ->)|[Hno ->]].
    + split; [by intros ? _ [= ->]|]. intros Hnot. by destruct (Hnot m).
    + split; [|done]. intros m Hm ->. by destruct (Hno m).
Qed.

Lemma X11_witness :
  mood <$> posts (db (createPost (Js.Str "hi") (Js.Str "moody") Js.Undefined
                                 sample_world).2) !! 3
  = Some "none"
  ∧ mood <$> posts (db (updatePost 1 (Js.Str "hi") (Js.Str "sad") Js.Undefined
                                   sample_world).2) !! 1
    = Some "sad".
Proof.
  split.
  - apply (proj1 (X11_moods_are_coerced 1 (Js.Str "hi") (Js.Str "moody")
                    Js.Undefined sample_world)
             (Created.mk 3 "hi" "none" Js.Null 0 0 ∅ 0)).
    reflexivity.
  - apply (proj2 (X11_moods_are_coerced 1 (Js.Str "hi") (Js.Str "sad")
                    Js.Undefined sample_world)
             (Updated.mk 1 "hi" "sad" Js.Null)).
    reflexivity.
Defined.

(** ** The breakdown, type by type *)

Lemma foldl_insert_lookup {A : Type} (key : A → string) (val : A → Z)
    (rows : list A) (m : gmap string Z) k :
  NoDup (key <$> rows) →
  foldl (λ acc r, <[key r := val r]> acc) m rows !! k
  = match filter (λ r, key r = k) rows with
    | [] => m !! k
    | r :: _ => Some (val r)
    end.
Proof.
  revert m. induction rows as [|r rows IH]; intros m Hnodup; [done|].
  rewrite fmap_cons in Hnodup. apply NoDup_cons in Hnodup as [Hr Hnodup].
  cbn [foldl]. rewrite IH, filter_cons by done.
  destruct (decide (key r = k)) as [<-|Hne].
  - rewrite filter_none, lookup_insert_eq; [done|].
    intros x Hx Heq. apply Hr. rewrite <- Heq. by apply list_elem_of_fmap_2.
  - by rewrite lookup_insert_ne.
Qed.

Lemma entry_count {K : Type} `{EqDecision K} (k : K) (keys : list K) :
  (if decide (k ∈ keys) then Some (Z.of_nat (length (filter (k =.) keys)))
   else None)
  = entry (Z.of_nat (length (filter (k =.) keys))).
Proof.
  unfold entry. destruct (decide (k ∈ keys)) as [Hin|Hout].
  - rewrite decide_False; [done|].
    assert (k ∈ filter (k =.) keys) as Hk by by apply list_elem_of_filter.
    destruct (filter (k =.) keys); [by apply elem_of_nil in Hk|simpl; lia].
  - rewrite filter_none, decide_True; [done..|]. by intros x Hx <-.
Qed.







Lemma group_count_types_NoDup (keys : list (Z * string)) id :
  NoDup ((λ r : Z * string * Z, r.1.2)
           <$> filter (λ r, r.1.1 = id) (group_count keys)).
Proof.
  unfold group_count.
  rewrite (filter_fmap _ (λ r : Z * string * Z, r.1.1 = id)).
  rewrite <- list_fmap_compose. apply NoDup_fmap_2_strong.
  - intros [p1 t1] [p2 t2] [H1 _]%list_elem_of_filter
           [H2 _]%list_elem_of_filter. simpl in *. congruence.
  - apply NoDup_filter, NoDup_remove_dups.
Qed.

Lemma select_reactions_in_lookup ids d id t :
  id ∈ ids →
  default ∅ (foldl add_row ∅ (select_reactions_in ids d) !! id) !! t
  = entry (count_type id t (reactions d)).
Proof.
  intros Hid. rewrite foldl_add_row_lookup, lookup_empty. simpl.
  unfold select_reactions_in.
  rewrite (foldl_insert_lookup (λ r, r.1.2) snd)
    by apply group_count_types_NoDup.
  rewrite list_filter_filter.
  rewrite (list_filter_iff _ (λ r : Z * string * Z, r.1 = (id, t)))
    by (intros [[??]?]; simpl; split; [by intros [-> ->]|by intros [= -> ->]]).
  rewrite group_count_filter, lookup_empty.
  transitivity
    (if decide ((id, t) ∈ (λ x, (reaction_post_id x, type x))
                  <$> filter (λ x, reaction_post_id x ∈ ids) (reactions d))
     then Some (Z.of_nat (length (filter ((id, t) =.)
                  ((λ x, (reaction_post_id x, type x))
                     <$> filter (λ x, reaction_post_id x ∈ ids) (reactions d)))))
     else None); [by case_decide|].
  rewrite entry_count, filter_fmap_length, list_filter_filter.
  unfold count_type. do 3 f_equal. apply list_filter_iff.
  intros x. split.
  - by intros [[= <- <-] _].
  - intros [<- <-]. done.
Qed.

(** X13: the breakdown of a listed post, type by type.  When both queries
    of the listing run, the [reactions] of every listed post give for each
    type the number of reactions of that type the post has, and no entry
    for a type it has none of. *)
Theorem X13_listed_breakdown_counts sort w :
  runs 2 w →
  ∃ rows, (listPosts sort w).1 = json rows
    ∧ ∀ x t, x ∈ rows →
        Listed.reactions x !! t
        = entry (count_type (Listed.id x) t (reactions (db w))).
Proof.
  intros Hruns. rewrite (listPosts_runs _ 1) by done. simpl.
  eexists. split; [done|].
  intros x t (row & -> & Hrow)%list_elem_of_fmap. simpl.
  rewrite (getReactionsForPosts_runs _ 0).
  - apply select_reactions_in_lookup. by apply (list_elem_of_fmap_2 Row.id).
  - intros Hnil. apply fmap_nil_inv in Hnil. rewrite Hnil in Hrow.
    by apply elem_of_nil in Hrow.
  - by apply runs_after.
Qed.

Lemma X13_witness :
  ∃ rows, (listPosts Js.Undefined sample_world).1 = json rows
    ∧ ∀ x t, x ∈ rows →
        Listed.reactions x !! t
        = entry (count_type (Listed.id x) t (reactions sample_store)).
Proof.
  apply (X13_listed_breakdown_counts Js.Undefined sample_world).
  unfold runs; simpl; constructor.
Defined.

(** X14: the [reply_count] of a listed post is the number of replies
    that carry its id, 0 when there is none. *)
Theorem X14_listed_reply_count sort w :
  runs 1 w →
  ∃ rows, (listPosts sort w).1 = json rows
    ∧ ∀ x, x ∈ rows →
        Row.reply_count (Listed.row x)
        = count_by reply_post_id (Listed.id x) (replies (db w)).
Proof.
  intros Hruns. rewrite (listPosts_runs _ 0) by done. simpl.
  eexists. split; [done|].
  intros x (row & -> & Hrow)%list_elem_of_fmap. simpl.
  by apply select_posts_elem_of in Hrow as (_ & _ & ->).
Qed.

Lemma X14_witness :
  ∃ rows, (listPosts Js.Undefined sample_world).1 = json rows
    ∧ ∀ x, x ∈ rows →
        Row.reply_count (Listed.row x)
        = count_by reply_post_id (Listed.id x) (replies sample_store).
Proof.
  apply (X14_listed_reply_count Js.Undefined sample_world).
  unfold runs; simpl; constructor.
Defined.

(** ** Replies *)

#[global] Instance ASC_total {A} (e : A → Z) : Total (ASC e).
Proof. intros a b. unfold ASC. lia. Qed.

#[global] Instance ASC_trans {A} (e : A → Z) : Transitive (ASC e).
Proof. intros a b c. unfold ASC. lia. Qed.


Lemma select_replies_Permutation id d :
  select_replies id d ≡ₚ filter (λ x, reply_post_id x = id) (replies d).
Proof. apply merge_sort_Permutation. Qed.



Lemma addReply_runs id s n w :
  Js.trim s ≠ "" → runs (S n) w →
  addReply id (Js.Str s) w
  = (json (next_rowid (seq_replies (db w)) (reply_id <$> replies (db w)),
           Js.Number id, Js.trim s),
     after (INSERT_replies id (Js.trim s))
           (insert_replies id (Js.trim s) (db w) (clock w)).2 w).
Proof.
  intros Hs Hruns. unfold addReply.
  rewrite is_blank_Str, bool_decide_eq_false_2 by done.
  unfold trimmed. simpl. by rewrite run_bind, (call_runs _ _ n).
Qed.

(** X16: a reply that was accepted is listed.  For a post id that a
    number holds exactly, up to 2^53, after [addReply] has answered a
    reply for the post, [listReplies] of that post holds a row with the
    answered id, the answered post id, the trimmed text and the time of
    the insertion, and one row more than before. *)
Theorem X16_accepted_reply_is_listed id s w :
  - 2 ^ 53 ≤ id ≤ 2 ^ 53 →
  Js.trim s ≠ "" → runs 2 w →
  let added := addReply id (Js.Str s) w in
  let listed := listReplies id added.2 in
  ∃ rowid rows,
    added.1 = json (rowid, Js.Num id, Js.trim s)
    ∧ listed.1 = json rows
    ∧ Reply rowid id (Js.trim s) (clock w) ∈ rows
    ∧ length rows
      = S (length (filter (λ x, reply_post_id x = id) (replies (db w)))).
Proof.
  intros Hid Hs Hruns. simpl. rewrite (addReply_runs id s 1) by done.
  rewrite Number_exact by done. simpl.
  unfold listReplies. rewrite run_bind, (query_runs _ _ 0) by runs_solver.
  simpl. eexists _, _. split_and!; [done|done|..].
  - rewrite select_replies_Permutation. simpl.
    apply list_elem_of_filter. split; [done|].
    apply elem_of_app. right. by apply list_elem_of_singleton.
  - rewrite select_replies_Permutation. simpl.
    rewrite filter_app, length_app, filter_cons_True by done. simpl. lia.
Qed.

Lemma X16_witness :
  ∃ rowid rows,
    (addReply 1 (Js.Str " me too ") sample_world).1
    = json (rowid, Js.Num 1, "me too")
    ∧ (listReplies 1 (addReply 1 (Js.Str " me too ") sample_world).2).1
      = json rows
    ∧ Reply rowid 1 "me too" 200 ∈ rows
    ∧ length rows = 2%nat.
Proof.
  apply (X16_accepted_reply_is_listed 1 " me too " sample_world).
  - by apply (bool_decide_unpack _).
  - done.
  - unfold runs; simpl; constructor.
Defined.

(** ** After a deletion *)

Lemma deletePost_runs id n w :
  runs (4 + n) w →
  (deletePost id w).1
  = (if posts (db w) !! id is Some _ then json true else NotFound)
  ∧ db (deletePost id w).2
    = (delete_posts id
         (delete_reports id
            (delete_replies id (delete_reactions id (db w)).2).2).2).2
  ∧ runs n (deletePost id w).2.
Proof.
  intros Hruns. unfold deletePost.
  run_call (3 + n)%nat. run_call (2 + n)%nat. run_call (1 + n)%nat.
  run_call n. unfold changes_at. simpl.
  destruct (posts (db w) !! id); simpl; (split_and!; [done|done|runs_solver]).
Qed.

(** X17: after a deletion the post has left no trace.  Once the four
    statements of [deletePost] have run, found or not, the replies of
    that id are the empty array and no listed post has the id. *)
Theorem X17_deleted_post_is_gone id sort w :
  runs 5 w →
  let w' := (deletePost id w).2 in
  (listReplies id w').1 = json []
  ∧ ∃ rows, (listPosts sort w').1 = json rows
      ∧ ∀ x, x ∈ rows → Listed.id x ≠ id.
Proof.
  intros Hruns. simpl.
  destruct (deletePost_runs id 1 w Hruns) as (_ & Hdb & Hruns').
  split.
  - unfold listReplies. rewrite run_bind, (query_runs _ _ 0) by done.
    simpl. rewrite Hdb. unfold select_replies. simpl.
    rewrite list_filter_filter, filter_none; [done|]. by intros x _ [? ?].
  - rewrite (listPosts_runs _ 0) by done. simpl.
    eexists. split; [done|].
    intros x (row & -> & Hrow)%list_elem_of_fmap. unfold Listed.id. simpl.
    apply select_posts_elem_of in Hrow as (Hpost & _). rewrite Hdb in Hpost.
    simpl in Hpost. intros <-. by rewrite lookup_delete_eq in Hpost.
Qed.

Lemma X17_witness :
  (listReplies 1 (deletePost 1 sample_world).2).1 = json []
  ∧ ∃ rows, (listPosts Js.Undefined (deletePost 1 sample_world).2).1 = json rows
      ∧ ∀ x, x ∈ rows → Listed.id x ≠ 1.
Proof.
  apply (X17_deleted_post_is_gone 1 Js.Undefined sample_world).
  unfold runs; simpl; constructor.
Defined.

Lemma filter_filter_same {A : Type} (P : A → Prop) `{!∀ x, Decision (P x)}
    (l : list A) :
  filter P (filter P l) = filter P l.
Proof. rewrite list_filter_filter. apply list_filter_iff. tauto. Qed.

(** X18: deleting twice.  When the statements of both requests run, the
    second deletion of an id is answered NotFound and changes no table. *)
Theorem X18_second_delete_finds_nothing id w :
  runs 8 w →
  let once := deletePost id w in
  let twice := deletePost id once.2 in
  twice.1 = NotFound ∧ db twice.2 = db once.2.
Proof.
  intros Hruns. simpl.
  destruct (deletePost_runs id 4 w Hruns) as (_ & Hdb & Hruns').
  destruct (deletePost_runs id 0 _ Hruns') as (-> & -> & _).
  rewrite Hdb. simpl. rewrite lookup_delete_eq. split; [done|].
  unfold with_posts. simpl. rewrite !filter_filter_same.
  f_equal. apply map_eq. intros j. destruct (decide (id = j)) as [<-|Hne].
  - by rewrite !lookup_delete_eq.
  - by rewrite !lookup_delete_ne.
Qed.

Lemma X18_witness :
  (deletePost 1 sample_world).1 = json true
  ∧ (deletePost 1 (deletePost 1 sample_world).2).1 = NotFound
  ∧ db (deletePost 1 (deletePost 1 sample_world).2).2
    = db (deletePost 1 sample_world).2.
Proof.
  split; [reflexivity|].
  apply (X18_second_delete_finds_nothing 1 sample_world).
  unfold runs; simpl; constructor.
Defined.

(** ** A created post in the list *)

Lemma select_posts_lists top d id p :
  posts d !! id = Some p →
  Row.mk id p (count_by reaction_post_id id (reactions d))
              (count_by reply_post_id id (replies d))
  ∈ select_posts top d.
Proof.
  intros Hp. rewrite select_posts_rows, ORDER_BY_Permutation.
  apply list_elem_of_fmap. exists (id, p). split; [done|].
  by apply elem_of_map_to_list.
Qed.

Lemma count_by_none {A : Type} (post_id : A → Z) id (l : list A) :
  (∀ x, x ∈ l → post_id x ≠ id) → count_by post_id id l = 0.
Proof. intros Hnone. unfold count_by. by rewrite filter_none. Qed.

Lemma count_type_none id t (l : list reaction) :
  (∀ x, x ∈ l → reaction_post_id x ≠ id) → count_type id t l = 0.
Proof.
  intros Hnone. unfold count_type. rewrite filter_none; [done|].
  intros x Hx [Hid _]. by apply (Hnone x).
Qed.

Lemma listPosts_lists sort w id p :
  runs 2 w → posts (db w) !! id = Some p →
  (∀ x, x ∈ reactions (db w) → reaction_post_id x ≠ id) →
  (∀ x, x ∈ replies (db w) → reply_post_id x ≠ id) →
  ∃ rows, (listPosts sort w).1 = json rows
    ∧ Listed.mk (Row.mk id p 0 0) ∅ ∈ rows.
Proof.
  intros Hruns Hp Hno_reaction Hno_reply.
  pose proof (select_posts_lists (bool_decide (sort = Js.Str "top"))
                (db w) id p Hp) as Hrow.
  rewrite !count_by_none in Hrow by done.
  rewrite (listPosts_runs _ 1) by done. simpl.
  eexists. split; [done|].
  apply list_elem_of_fmap. eexists. split; [|exact Hrow]. simpl. f_equal.
  rewrite (getReactionsForPosts_runs _ 0).
  - symmetry. apply map_eq. intros t.
    rewrite lookup_empty, select_reactions_in_lookup.
    + by rewrite count_type_none.
    + by apply (list_elem_of_fmap_2 Row.id) in Hrow.
  - intros Hnil. apply fmap_nil_inv in Hnil. rewrite Hnil in Hrow.
    by apply elem_of_nil in Hrow.
  - by apply runs_after.
Qed.

(** X19: a created post is listed as it was answered.  If every reaction
    and reply in the tables belongs to a post that exists, then after
    [createPost] has answered a post the list holds a row with the
    answered id, the trimmed text, the stored mood, both counters at 0
    and the time of the insertion, and with no reactions and no replies,
    as the answer said.  Its [image] column holds what the [TEXT] column
    makes of the answered image: the answered image itself when the
    image sent was a string or falsy. *)
Theorem X19_created_post_is_listed s md img sort w :
  referential (db w) →
  Js.trim s ≠ "" → Js.length (Js.trim s) ≤ MAX_LENGTH → runs 3 w →
  let created := createPost (Js.Str s) md img w in
  let listed := listPosts sort created.2 in
  ∃ c rows x,
    let listed_post := Row.columns (Listed.row x) in
    created.1 = json c ∧ listed.1 = json rows ∧ x ∈ rows
    ∧ Listed.id x = Created.id c
    ∧ text listed_post = Created.text c
    ∧ mood listed_post = Created.mood c
    ∧ likes listed_post = Created.likes c
    ∧ reposts listed_post = Created.reposts c
    ∧ timestamp listed_post = clock w
    ∧ image_column listed_post = Sqlite.TEXT (Created.image c)
    ∧ (Js.is_string img = true ∨ Js.truthy img = false →
       stored_as (Some (image_column listed_post)) (Created.image c))
    ∧ Created.text c = Js.trim s
    ∧ Listed.reaction_count x = 0
    ∧ Row.reply_count (Listed.row x) = Created.reply_count c
    ∧ Listed.reactions x = Created.reactions c.
Proof.
  intros [Hreactions Hreplies _] Hs Hlen Hruns. simpl.
  rewrite createPost_valid by (done || runs_solver). simpl.
  set (id := next_rowid (seq_posts (db w)) (map_to_list (posts (db w))).*1).
  assert (posts (db w) !! id = None) as Hfresh by apply next_rowid_fresh.
  edestruct (listPosts_lists sort) as (rows & -> & Hrow).
  - apply runs_after. exact Hruns.
  - simpl. apply lookup_insert_eq.
  - simpl. intros x Hx Heq. destruct (Hreactions x Hx) as [p Hp].
    fold id in Heq. congruence.
  - simpl. intros x Hx Heq. destruct (Hreplies x Hx) as [p Hp].
    fold id in Heq. congruence.
  - eexists _, rows, _. simpl.
    split_and!;
      [done|done|exact Hrow|done|done|done|done|done|done|done| |done..].
    unfold image_column. simpl. intros [Himg|Himg].
    + destruct img as [| | | |i|]; try done. unfold Js.or.
      destruct (Js.truthy (Js.Str i)); by apply stored_as_Some.
    + by destruct (TEXT_falsy img Himg) as [-> ?].
Qed.

Lemma referential_sample_store : referential sample_store.
Proof.
  split; intros x Hx; simpl in Hx;
    repeat (apply elem_of_cons in Hx as [->|Hx]; [by eexists|]);
    by apply elem_of_nil in Hx.
Qed.

Lemma X19_witness :
  ∃ c rows x,
    (createPost (Js.Str " new ") Js.Undefined (Js.Str "pic.png")
                sample_world).1
    = json c
    ∧ (listPosts Js.Undefined
         (createPost (Js.Str " new ") Js.Undefined (Js.Str "pic.png")
                     sample_world).2).1 = json rows
    ∧ x ∈ rows
    ∧ Listed.id x = Created.id c
    ∧ text (Row.columns (Listed.row x)) = Created.text c
    ∧ mood (Row.columns (Listed.row x)) = Created.mood c
    ∧ likes (Row.columns (Listed.row x)) = Created.likes c
    ∧ reposts (Row.columns (Listed.row x)) = Created.reposts c
    ∧ timestamp (Row.columns (Listed.row x)) = 200
    ∧ image_column (Row.columns (Listed.row x))
      = Sqlite.TEXT (Created.image c)
    ∧ (Js.is_string (Js.Str "pic.png") = true
       ∨ Js.truthy (Js.Str "pic.png") = false →
       stored_as (Some (image_column (Row.columns (Listed.row x))))
                 (Created.image c))
    ∧ Created.text c = "new"
    ∧ Listed.reaction_count x = 0
    ∧ Row.reply_count (Listed.row x) = Created.reply_count c
    ∧ Listed.reactions x = Created.reactions c.
Proof.
  apply (X19_created_post_is_listed " new " Js.Undefined (Js.Str "pic.png")
           Js.Undefined sample_world).
  - apply referential_sample_store.
  - done.
  - done.
  - unfold runs; simpl; constructor.
Defined.

(** ** Counters *)

Lemma incrementLikes_db id n w :
  runs (2 + n) w →
  db (incrementLikes id w).2 = (update_likes id (db w)).2
  ∧ runs n (incrementLikes id w).2.
Proof.
  intros Hruns. unfold incrementLikes. run_call (1 + n)%nat.
  destruct (changes_at id (db w) =? 0); simpl.
  - split; [done|]. apply (runs_le n (S n)); [lia|]. runs_solver.
  - rewrite run_bind, (query_runs _ _ n) by runs_solver. simpl.
    destruct (select_likes _ _); simpl; split; try done; runs_solver.
Qed.

Lemma incrementReposts_db id n w :
  runs (2 + n) w →
  db (incrementReposts id w).2 = (update_reposts id (db w)).2
  ∧ runs n (incrementReposts id w).2.
Proof.
  intros Hruns. unfold incrementReposts. run_call (1 + n)%nat.
  destruct (changes_at id (db w) =? 0); simpl.
  - split; [done|]. apply (runs_le n (S n)); [lia|]. runs_solver.
  - rewrite run_bind, (query_runs _ _ n) by runs_solver. simpl.
    destruct (select_reposts _ _); simpl; split; try done; runs_solver.
Qed.

Lemma incrementReposts_runs id p w :
  posts (db w) !! id = Some p → runs 2 w →
  (incrementReposts id w).1 = json (reposts p + 1).
Proof.
  intros Hp Hruns. unfold incrementReposts.
  run_call 1%nat. unfold changes_at. rewrite Hp. simpl.
  rewrite run_bind, (query_runs _ _ 0) by runs_solver. simpl.
  unfold select_reposts. simpl. by rewrite lookup_alter_eq, Hp.
Qed.

(** X20: the repost counter, and the two counters together.  A repost of
    an existing post answers its counter plus one, writes that into the
    post and leaves the rest of it, the other posts and the child tables
    as they were; a like of one post and a repost of one post, the same
    or another, leave the same tables in either order. *)
Theorem X20_counters_are_independent :
  (∀ id p w, posts (db w) !! id = Some p → runs 2 w →
     (incrementReposts id w).1 = json (reposts p + 1)
     ∧ db (incrementReposts id w).2
       = with_posts (<[id := Post (text p) (mood p) (image p) (likes p)
                                  (reposts p + 1) (timestamp p)]>) (db w))
  ∧ (∀ i j w, runs 4 w →
       db (incrementReposts j (incrementLikes i w).2).2
       = db (incrementLikes i (incrementReposts j w).2).2).
Proof.
  split.
  - intros id p w Hp Hruns. split; [by apply incrementReposts_runs|].
    destruct (incrementReposts_db id 0 w Hruns) as [-> _].
    unfold update_reposts, with_posts. simpl. f_equal.
    apply map_eq. intros j. destruct (decide (id = j)) as [<-|Hne].
    + by rewrite lookup_alter_eq, lookup_insert_eq, Hp.
    + by rewrite lookup_alter_ne, lookup_insert_ne.
  - intros i j w Hruns.
    destruct (incrementLikes_db i 2 w Hruns) as [Hlike Hruns1].
    destruct (incrementReposts_db j 2 w Hruns) as [Hrepost Hruns2].
    destruct (incrementReposts_db j 0 _ Hruns1) as [-> _].
    destruct (incrementLikes_db i 0 _ Hruns2) as [-> _].
    rewrite Hlike, Hrepost. unfold update_likes, update_reposts, with_posts.
    simpl. f_equal. apply map_eq. intros k.
    rewrite !lookup_alter. repeat case_decide; simplify_eq; try done;
      by match goal with
         | |- context [posts (db w) !! ?k] => destruct (posts (db w) !! k)
         end.
Qed.

Lemma X20_witness :
  (incrementReposts 1 sample_world).1 = json 2
  ∧ db (incrementReposts 2 (incrementLikes 1 sample_world).2).2
    = db (incrementLikes 1 (incrementReposts 2 sample_world).2).2.
Proof.
  assert (runs 2 sample_world) as Hruns2 by (unfold runs; simpl; constructor).
  assert (runs 4 sample_world) as Hruns4 by (unfold runs; simpl; constructor).
  split.
  - apply (proj1 X20_counters_are_independent 1
             (Post "hi" "none" Js.Null 4 1 100) sample_world eq_refl Hruns2).
  - apply (proj2 X20_counters_are_independent 1 2 sample_world Hruns4).
Defined.

(** ** A 500 after the write *)

(** X21: an answer of 500 does not mean that nothing was written.  When
    the statement that reads back fails after the write has run, a like
    is answered 500 with the message of the driver although the counter
    has gone up, and a reaction is answered 500 although its row is in
    the table; when the last statement of a deletion fails after the
    three before it have run, the answer is 500, the post is still there
    and its reactions, replies and reports are gone. *)
Theorem X21_failure_after_the_write message w :
  (∀ id p, posts (db w) !! id = Some p → runs 1 w → fails 1 message w →
     (incrementLikes id w).1 = status 500 message
     ∧ likes <$> posts (db (incrementLikes id w).2) !! id = Some (likes p + 1))
  ∧ (∀ id ty, ty ∈ validTypes → runs 1 w → fails 1 message w →
       (addReaction id (Js.Str ty) w).1 = status 500 message
       ∧ ∃ rowid, reactions (db (addReaction id (Js.Str ty) w).2)
                  = reactions (db w) ++ [Reaction rowid id ty (clock w)])
  ∧ (∀ id p, posts (db w) !! id = Some p → runs 3 w → fails 3 message w →
       (deletePost id w).1 = status 500 message
       ∧ posts (db (deletePost id w).2) !! id = Some p
       ∧ (∀ x, x ∈ reactions (db (deletePost id w).2) → reaction_post_id x ≠ id)
       ∧ (∀ x, x ∈ replies (db (deletePost id w).2) → reply_post_id x ≠ id)
       ∧ (∀ x, x ∈ reports (db (deletePost id w).2) → report_post_id x ≠ id)).
Proof.
  split_and!.
  - intros id p Hp Hruns Hfails. unfold incrementLikes.
    run_call 0%nat. unfold changes_at. rewrite Hp. simpl.
    rewrite run_bind, (query_fails _ _ message) by by apply fails_after.
    simpl. by rewrite lookup_alter_eq, Hp.
  - intros id ty Hty Hruns Hfails. unfold addReaction.
    rewrite includes_Str, bool_decide_eq_true_2 by done. simpl.
    run_call 0%nat.
    rewrite run_bind, (query_fails _ _ message) by by apply fails_after.
    simpl. split; [done|]. by eexists.
  - intros id p Hp Hruns Hfails. unfold deletePost.
    run_call 2%nat. run_call 1%nat. run_call 0%nat.
    rewrite run_bind, (call_fails _ _ message)
      by by repeat apply fails_after.
    simpl. split_and!; [done|done|..];
      by intros x [? _]%list_elem_of_filter.
Qed.

Lemma X21_witness :
  (incrementLikes 1 faulty_world).1
  = status 500 "SQLITE_BUSY: database is locked"
  ∧ likes <$> posts (db (incrementLikes 1 faulty_world).2) !! 1 = Some 5.
Proof.
  apply (proj1 (X21_failure_after_the_write
                  "SQLITE_BUSY: database is locked" faulty_world)
           1 (Post "hi" "none" Js.Null 4 1 100)).
  - reflexivity.
  - unfold runs; simpl. by repeat constructor.
  - reflexivity.
Defined.

(** ** The schema at startup *)

Module SchemaFacts.
Import Schema.

Lemma created_from_refl t : created_from t t.
Proof. split; [done|auto]. Qed.

Lemma created_from_trans t1 t2 t3 :
  created_from t1 t2 → created_from t2 t3 → created_from t1 t3.
Proof.
  intros [S1 O1] [S2 O2]. split; [by etrans|].
  intros name columns Hname. destruct (O2 _ _ Hname) as [Hold|?]; auto.
Qed.

Lemma run_ignored_create failures name columns t :
  (name, columns)
  ∈ [("posts", posts_columns); ("reactions", reactions_columns);
     ("replies", replies_columns); ("reports", reports_columns)] →
  lower name = name →
  created_from t
    (run_ignored failures (create_table_if_not_exists name columns) t).1
  ∧ (failures = [] →
     is_Some ((run_ignored failures
                 (create_table_if_not_exists name columns) t).1 !! name)
     ∧ (run_ignored failures
          (create_table_if_not_exists name columns) t).2 = []).
Proof.
  intros Hdeclared Hlower.
  assert (∀ t', create_table_if_not_exists name columns t = Some t' →
                created_from t t' ∧ is_Some (t' !! name)) as Hcreate.
  { unfold create_table_if_not_exists. rewrite Hlower. intros t'.
    destruct (t !! name) as [cols|] eqn:Hname; intros [= <-].
    - split; [apply created_from_refl|by eexists].
    - split; [|rewrite lookup_insert_eq; by eexists].
      split; [by apply insert_subseteq|]. intros other cols.
      intros [[<- <-]|[_ ?]]%lookup_insert_Some; auto. }
  unfold run_ignored.
  destruct (create_table_if_not_exists name columns t) as [t'|] eqn:Ht';
    [|by unfold create_table_if_not_exists in Ht'; destruct (t !! _)].
  destruct (Hcreate t' eq_refl) as [Hfrom Hsome].
  destruct failures as [|[message|] rest]; simpl; split; try done.
  apply created_from_refl.
Qed.

Lemma create_tables_created failures t :
  created_from t (create_tables failures t).1
  ∧ (failures = [] →
     is_Some ((create_tables failures t).1 !! "posts")
     ∧ is_Some ((create_tables failures t).1 !! "reactions")
     ∧ is_Some ((create_tables failures t).1 !! "replies")
     ∧ is_Some ((create_tables failures t).1 !! "reports")
     ∧ (create_tables failures t).2 = []).
Proof.
  unfold create_tables.
  pose proof (run_ignored_create failures "posts" posts_columns t) as H1.
  destruct (run_ignored failures _ t) as [t1 f1]. simpl in H1.
  pose proof (run_ignored_create f1 "reactions" reactions_columns t1) as H2.
  destruct (run_ignored f1 _ t1) as [t2 f2]. simpl in H2.
  pose proof (run_ignored_create f2 "replies" replies_columns t2) as H3.
  destruct (run_ignored f2 _ t2) as [t3 f3]. simpl in H3.
  pose proof (run_ignored_create f3 "reports" reports_columns t3) as H4.
  destruct (run_ignored f3 _ t3) as [t4 f4]. simpl in H4.
  destruct H1 as [C1 E1]; [by repeat constructor|done|].
  destruct H2 as [C2 E2]; [by repeat constructor|done|].
  destruct H3 as [C3 E3]; [by repeat constructor|done|].
  destruct H4 as [C4 E4]; [by repeat constructor|done|].
  split.
  - eauto using created_from_trans.
  - intros ->. destruct (E1 eq_refl) as [[c1 Hc1] ->].
    destruct (E2 eq_refl) as [[c2 Hc2] ->].
    destruct (E3 eq_refl) as [[c3 Hc3] ->].
    destruct (E4 eq_refl) as [[c4 Hc4] ->].
    destruct C2 as [S2 _], C3 as [S3 _], C4 as [S4 _].
    split_and!; [| | | |done]; eexists; eapply lookup_weaken;
      try eassumption; try done; by repeat (etrans; [eassumption|]).
Qed.

Lemma has_column_snoc columns name :
  has_column (columns ++ [name]) name = true.
Proof.
  unfold has_column. apply bool_decide_eq_true. rewrite fmap_app.
  apply elem_of_app. right. by apply list_elem_of_singleton.
Qed.

Lemma has_column_elem_of columns name :
  name ∈ columns → has_column columns name = true.
Proof.
  intros Hin. apply bool_decide_eq_true. by apply list_elem_of_fmap_2.
Qed.

Lemma lower_posts : lower "posts" = "posts".
Proof. reflexivity. Qed.

(** The migration leaves the tables alone or adds [image] to a [posts]
    that SQLite finds none in. *)
Lemma migrate_cases failures t :
  migrate failures t = t
  ∨ ∃ columns,
      t !! "posts" = Some columns ∧ has_column columns "image" = false
      ∧ migrate failures t = <["posts" := columns ++ ["image"]]> t.
Proof.
  unfold migrate, table_info, run_ignored, add_column.
  rewrite !lower_posts.
  destruct (t !! "posts") as [columns|] eqn:Hposts; simpl.
  - destruct (has_column columns "image") eqn:Hhas;
      destruct failures as [|[message|] [|[message'|] rest]]; simpl;
      try (by left); case_bool_decide; simpl; try (by left);
      right; by exists columns.
  - destruct failures as [|[message|] [|[message'|] rest]]; simpl;
      try (by left); case_bool_decide; simpl; by left.
Qed.

Lemma migrate_ready t :
  is_Some (t !! "posts") →
  ∃ columns, migrate [] t !! "posts" = Some columns
             ∧ has_column columns "image" = true.
Proof.
  intros [columns Hposts].
  unfold migrate, table_info, run_ignored, add_column.
  rewrite !lower_posts, Hposts. simpl. case_bool_decide as Himage.
  - exists columns. split; [done|]. by apply has_column_elem_of.
  - destruct (has_column columns "image") eqn:Hhas; simpl.
    + by exists columns.
    + exists (columns ++ ["image"]). rewrite lookup_insert_eq.
      split; [done|]. apply has_column_snoc.
Qed.
Lemma run_ignored_create_existing failures name columns t :
  lower name = name → is_Some (t !! name) →
  (run_ignored failures (create_table_if_not_exists name columns) t).1 = t.
Proof.
  intros Hlower [cols Hname]. unfold run_ignored, create_table_if_not_exists.
  rewrite Hlower, Hname. by destruct failures as [|[?|] ?].
Qed.

Lemma create_tables_ready failures t :
  ready t → (create_tables failures t).1 = t.
Proof.
  intros ((columns & Hposts & _) & Hreactions & Hreplies & Hreports).
  unfold create_tables.
  pose proof (run_ignored_create_existing failures "posts" posts_columns t
                eq_refl (mk_is_Some _ _ Hposts)) as H1.
  destruct (run_ignored failures _ t) as [t1 f1]. simpl in H1. subst t1.
  pose proof (run_ignored_create_existing f1 "reactions" reactions_columns t
                eq_refl Hreactions) as H2.
  destruct (run_ignored f1 _ t) as [t2 f2]. simpl in H2. subst t2.
  pose proof (run_ignored_create_existing f2 "replies" replies_columns t
                eq_refl Hreplies) as H3.
  destruct (run_ignored f2 _ t) as [t3 f3]. simpl in H3. subst t3.
  by apply run_ignored_create_existing.
Qed.

Lemma startup_migrate failures t :
  startup failures t
  = migrate (create_tables failures t).2 (create_tables failures t).1.
Proof. unfold startup. by destruct (create_tables failures t). Qed.
End SchemaFacts.

(** X22: starting up only adds to the schema.  Whatever tables the file
    holds and whatever the driver reports, a table that was there is
    still there with the columns it had, in their order; the one change
    a table can see is [posts] getting [image] as its last column, and
    only when SQLite finds no such column in it.  A table that was not
    there is one of the four the file declares, with the declared
    columns. *)
Theorem X22_startup_only_adds failures t name :
  (∀ columns, t !! name = Some columns →
     ∃ columns', Schema.startup failures t !! name = Some columns'
       ∧ (columns' = columns
          ∨ name = "posts" ∧ columns' = columns ++ ["image"]
            ∧ Schema.has_column columns "image" = false))
  ∧ (∀ columns', t !! name = None →
       Schema.startup failures t !! name = Some columns' →
       (name, columns')
       ∈ [("posts", Schema.posts_columns);
          ("reactions", Schema.reactions_columns);
          ("replies", Schema.replies_columns);
          ("reports", Schema.reports_columns)]).
Proof.
  rewrite SchemaFacts.startup_migrate.
  destruct (SchemaFacts.create_tables_created failures t) as [[Hsub Hnew] _].
  destruct (SchemaFacts.migrate_cases (Schema.create_tables failures t).2
              (Schema.create_tables failures t).1)
    as [->|(cols & Hposts & Hhas & ->)].
  - split.
    + intros columns Hname. exists columns. split; [|by left].
      by apply (lookup_weaken _ _ _ _ Hname).
    + intros columns' Hnone Hsome.
      destruct (Hnew _ _ Hsome) as [Hold|Hdeclared]; [congruence|done].
  - split.
    + intros columns Hname. pose proof (lookup_weaken _ _ _ _ Hname Hsub) as H4.
      destruct (decide (name = "posts")) as [->|Hne].
      * rewrite lookup_insert_eq. exists (cols ++ ["image"]).
        split; [done|]. right. by simplify_eq.
      * rewrite lookup_insert_ne by done. exists columns. by split; [|left].
    + intros columns' Hnone.
      intros [[<- <-]|[_ Hsome]]%lookup_insert_Some.
      * destruct (Hnew _ _ Hposts) as [Hold|Hdeclared]; [congruence|].
        exfalso.
        repeat (apply elem_of_cons in Hdeclared as [Heq|Hdeclared];
                [first [discriminate Heq
                       |injection Heq as ->; by vm_compute in Hhas]|]).
        by apply elem_of_nil in Hdeclared.
      * destruct (Hnew _ _ Hsome) as [Hold|Hdeclared]; [congruence|done].
Qed.

Lemma X22_witness :
  Schema.startup [] Schema.old_file !! "posts"
  = Some ["id"; "text"; "mood"; "likes"; "reposts"; "timestamp"; "image"]
  ∧ Schema.startup [None; Some "SQLITE_BUSY"] Schema.old_file !! "reactions"
    = Some Schema.reactions_columns.
Proof.
  split.
  - destruct (proj1 (X22_startup_only_adds [] Schema.old_file "posts")
                ["id"; "text"; "mood"; "likes"; "reposts"; "timestamp"]
                eq_refl) as (columns' & Hposts & _).
    rewrite Hposts. vm_compute in Hposts. by injection Hposts as <-.
  - destruct (proj1 (X22_startup_only_adds [None; Some "SQLITE_BUSY"]
                       Schema.old_file "reactions")
                Schema.reactions_columns eq_refl)
      as (columns' & Hreactions & _).
    rewrite Hreactions. vm_compute in Hreactions. by injection Hreactions as <-.
Defined.

(** X23: after a startup in which no statement fails the schema is
    ready, whatever it was: the four tables are there and SQLite finds an
    [image] column in [posts]. *)
Theorem X23_startup_makes_ready t : Schema.ready (Schema.startup [] t).
Proof.
  rewrite SchemaFacts.startup_migrate.
  destruct (SchemaFacts.create_tables_created [] t) as [_ Hall].
  destruct (Hall eq_refl) as (Hposts & Hreactions & Hreplies & Hreports & ->).
  split; [by apply SchemaFacts.migrate_ready|].
  destruct (SchemaFacts.migrate_cases [] (Schema.create_tables [] t).1)
    as [->|(cols & _ & _ & ->)]; [done|].
  by rewrite !lookup_insert_ne.
Qed.

(** X24: a ready schema is left alone.  Starting up on a file that has
    the four tables and an [image] column in [posts] changes nothing,
    whatever the driver reports; so starting up again after a startup
    without failures changes nothing either. *)
Theorem X24_startup_is_idempotent failures t :
  (Schema.ready t → Schema.startup failures t = t)
  ∧ Schema.startup failures (Schema.startup [] t) = Schema.startup [] t.
Proof.
  assert (∀ t', Schema.ready t' → Schema.startup failures t' = t') as Hready.
  { intros t' Ht'. rewrite SchemaFacts.startup_migrate.
    rewrite SchemaFacts.create_tables_ready by done.
    destruct (SchemaFacts.migrate_cases (Schema.create_tables failures t').2 t')
      as [->|(cols & Hposts & Hhas & _)]; [done|].
    destruct Ht' as ((columns & Hposts' & Hhas') & _). congruence. }
  split; [apply Hready|].
  apply Hready. rewrite SchemaFacts.startup_migrate.
  destruct (SchemaFacts.create_tables_created [] t) as [_ Hall].
  destruct (Hall eq_refl) as (Hposts & Hreactions & Hreplies & Hreports & ->).
  split; [by apply SchemaFacts.migrate_ready|].
  destruct (SchemaFacts.migrate_cases [] (Schema.create_tables [] t).1)
    as [->|(cols & _ & _ & ->)]; [done|].
  by rewrite !lookup_insert_ne.
Qed.

Lemma X24_witness :
  Schema.startup [Some "SQLITE_BUSY"] (Schema.startup [] Schema.old_file)
  = Schema.startup [] Schema.old_file.
Proof.
  apply (proj1 (X24_startup_is_idempotent [Some "SQLITE_BUSY"]
                  (Schema.startup [] Schema.old_file))).
  split; [|by split_and!; eexists].
  eexists. split; reflexivity.
Defined.
